(** * Session engine of the honeypot backend (src/main.py)

    A shallow embedding of the message handler [chat_handler] and of the
    functions it calls: the scam classifier [detect_scam], the intelligence
    extractor [extract_and_update_intelligence], the session initialiser
    [init_new_session_state] and the callback payload builder
    [send_final_callback].

    Modelling conventions.
    - A Python [str] is a Rocq [string] read as a sequence of code points
      below 256 (one [ascii] per code point).  The character categories of
      the [re] module and [str.lower] are the Unicode ones of CPython,
      restricted to that range.
    - [datetime] values are integers counting microseconds (the resolution
      of [datetime]); [(now - last_active).total_seconds() > 1800] compares
      the difference with 1800 seconds.
    - The session store is a finite map from session ids to session
      records; a handler call takes the store and returns the new one.
    - What the outside world contributes to one call (the two clock
      readings and the outcome of the HTTP exchange with the LLM service)
      is an explicit argument of the handler. *)

From Stdlib Require Import ZArith NArith Lia Ascii String List Bool.
From stdpp Require Import base option list gmap strings.

Local Open Scope string_scope.
Local Open Scope list_scope.
Local Open Scope nat_scope.

(** ** Characters and strings as Python sees them *)

Module Py.

Definition code (c : ascii) : N := N_of_ascii c.

Definition between (lo hi : N) (c : ascii) : bool :=
  ((lo <=? code c) && (code c <=? hi))%N.

Definition is_char (a c : ascii) : bool := Ascii.eqb a c.

(** [\d]: decimal digits. *)
Definition is_digit (c : ascii) : bool := between 48 57 c.

Definition is_upper_az (c : ascii) : bool := between 65 90 c.
Definition is_lower_az (c : ascii) : bool := between 97 122 c.

(** [\w]: alphanumeric code points and the underscore. *)
Definition is_word (c : ascii) : bool :=
  is_digit c || is_upper_az c || is_lower_az c || is_char "_" c
  || between 170 170 c || between 178 179 c || between 181 181 c
  || between 185 186 c || between 188 190 c
  || between 192 214 c || between 216 246 c || between 248 255 c.

(** [\s]: whitespace. *)
Definition is_space (c : ascii) : bool :=
  between 9 13 c || between 28 32 c || between 133 133 c
  || between 160 160 c.

(** [str.lower] on one character: the cased letters below 256 with an
    upper-case form are A-Z, U+00C0-U+00D6 and U+00D8-U+00DE; each one
    maps to the code point 32 above it. *)
Definition lower_char (c : ascii) : ascii :=
  if is_upper_az c || between 192 214 c || between 216 222 c
  then ascii_of_N (code c + 32)
  else c.

Fixpoint lower (s : string) : string :=
  match s with
  | EmptyString => EmptyString
  | String c s' => String (lower_char c) (lower s')
  end.

(** [k in s] on strings: [k] occurs in [s] as a substring. *)
Fixpoint str_in (k s : string) : bool :=
  String.prefix k s ||
  match s with
  | EmptyString => false
  | String _ s' => str_in k s'
  end.

(** [x in l] on a list of strings. *)
Definition list_in (x : string) (l : list string) : bool :=
  existsb (String.eqb x) l.

End Py.

(** ** The fragment of [re] used by REGEX_PATTERNS

    A backtracking matcher in continuation-passing style: alternatives are
    tried in the order of the pattern, repetitions are greedy, and the
    first way to reach the end of the pattern wins, as in CPython's
    engine.  A position in the subject is the character before it (needed
    by [\b]) and the text after it. *)

Module Re.

Inductive regex : Type :=
| Emp                                              (* empty pattern *)
| Chr (c : ascii)                                  (* a literal character *)
| Cls (p : ascii -> bool)                          (* a set or category *)
| Cat (r1 r2 : regex)                              (* r1 r2 *)
| Alt (r1 r2 : regex)                              (* r1|r2 *)
| Rep (lo : nat) (hi : option nat) (r : regex)     (* greedy r{lo,hi} *)
| Bnd.                                             (* \b *)

Definition position : Type := option ascii * string.

Definition cont : Type := option ascii -> string -> option position.

Definition word_at (c : option ascii) : bool :=
  match c with
  | Some a => Py.is_word a
  | None => false
  end.

Definition next_char (s : string) : option ascii :=
  match s with
  | EmptyString => None
  | String a _ => Some a
  end.

Definition below (n : nat) (hi : option nat) : bool :=
  match hi with
  | Some h => n <? h
  | None => true
  end.

Definition one (p : ascii -> bool) (s : string) (k : cont)
  : option position :=
  match s with
  | String a s' => if p a then k (Some a) s' else None
  | EmptyString => None
  end.

(** [rmatch r prev s k] matches [r] at the position [(prev, s)] and
    hands the position reached to [k]; [None] from [k] makes the
    matcher backtrack.  An iteration of a repetition has to consume
    text (every repeated body of REGEX_PATTERNS does), so the length of
    the remaining text bounds the number of iterations. *)
Fixpoint rmatch (r : regex) (prev : option ascii) (s : string) (k : cont)
  : option position :=
  match r with
  | Emp => k prev s
  | Chr c => one (Py.is_char c) s k
  | Cls p => one p s k
  | Cat r1 r2 => rmatch r1 prev s (fun prev' s' => rmatch r2 prev' s' k)
  | Alt r1 r2 =>
      match rmatch r1 prev s k with
      | Some e => Some e
      | None => rmatch r2 prev s k
      end
  | Bnd =>
      if xorb (word_at prev) (word_at (next_char s)) then k prev s
      else None
  | Rep lo hi r1 =>
      (fix loop (fuel n : nat) (prev : option ascii) (s : string)
           (k : cont) {struct fuel} : option position :=
         let stop := if lo <=? n then k prev s else None in
         match fuel with
         | O => stop
         | S fuel' =>
             if below n hi then
               match
                 rmatch r1 prev s
                   (fun prev' s' =>
                      if String.length s' <? String.length s
                      then loop fuel' (S n) prev' s' k
                      else None)
               with
               | Some e => Some e
               | None => stop
               end
             else stop
         end) (String.length s) O prev s k
  end.

(** One search of [findall]: the leftmost position from which the
    pattern matches.  [must_advance] refuses an empty match at the very
    first position tried (it is set after an empty match). *)
Fixpoint search (r : regex) (must_advance : bool) (prev : option ascii)
  (s : string) : option (string * position) :=
  match
    rmatch r prev s
      (fun prev' s' =>
         if must_advance && (String.length s' =? String.length s)
         then None else Some (prev', s'))
  with
  | Some e => Some (s, e)
  | None =>
      match s with
      | EmptyString => None
      | String a s' => search r false (Some a) s'
      end
  end.

Fixpoint findall_from (fuel : nat) (r : regex) (must_advance : bool)
  (prev : option ascii) (s : string) : list string :=
  match fuel with
  | O => []
  | S fuel' =>
      match search r must_advance prev s with
      | None => []
      | Some (s0, (prev', e)) =>
          substring 0 (String.length s0 - String.length e) s0
          :: findall_from fuel' r (String.length e =? String.length s0)
               prev' e
      end
  end.

(** [re.findall(pattern, text)] for a pattern without groups: the
    non-overlapping matches, left to right.  Two searches at most start
    at the same position, which bounds the number of rounds. *)
Definition findall (r : regex) (s : string) : list string :=
  findall_from (2 * String.length s + 2) r false None s.

(** [re.search(pattern, text)] used as a truth value. *)
Definition search_bool (r : regex) (s : string) : bool :=
  match search r false None s with
  | Some _ => true
  | None => false
  end.

(** Pattern combinators. *)
Fixpoint lit (s : string) : regex :=
  match s with
  | EmptyString => Emp
  | String c EmptyString => Chr c
  | String c s' => Cat (Chr c) (lit s')
  end.

Definition opt (r : regex) : regex := Rep 0 (Some 1) r.       (* r? *)
Definition plus (r : regex) : regex := Rep 1 None r.          (* r+ *)
Definition star (r : regex) : regex := Rep 0 None r.          (* r* *)
Definition times (lo hi : nat) (r : regex) : regex := Rep lo (Some hi) r.

End Re.

Infix "⋅" := Re.Cat (at level 41, right associativity).

(** ** What a pattern can match

    The words of a pattern, read off its syntax: the text consumed by any
    successful match is one of them ([\b] consumes nothing). *)

(** The concatenation of a list of strings. *)
Definition concat_str (ws : list string) : string :=
  fold_right String.append "" ws.

(** [n] repetitions are allowed by the upper bound [hi]. *)
Definition within (n : nat) (hi : option nat) : Prop :=
  match hi with
  | Some h => n <= h
  | None => True
  end.

Fixpoint lang (r : Re.regex) (w : string) {struct r} : Prop :=
  match r with
  | Re.Emp => w = ""
  | Re.Chr c => w = String c ""
  | Re.Cls p => exists a, p a = true /\ w = String a ""
  | Re.Cat r1 r2 => exists w1 w2, w = w1 +:+ w2 /\ lang r1 w1 /\ lang r2 w2
  | Re.Alt r1 r2 => lang r1 w \/ lang r2 w
  | Re.Rep lo hi r1 =>
      exists ws, w = concat_str ws /\ lo <= length ws
                 /\ within (length ws) hi /\ Forall (lang r1) ws
  | Re.Bnd => w = ""
  end.

(** Every character of [s] satisfies [p]. *)
Fixpoint all_chars (p : ascii -> bool) (s : string) : bool :=
  match s with
  | EmptyString => true
  | String c s' => p c && all_chars p s'
  end.

(** [m] occurs in [s]. *)
Definition occurs_in (m s : string) : Prop :=
  exists a b, s = a +:+ m +:+ b.

(** ** Intelligence extraction (src/main.py, lines 96-129) *)

Definition KEYWORDS_SCAM : list string :=
  [ "urgent"; "blocked"; "verify"; "kyc"; "upi"; "pay"; "bank"; "account";
    "suspended"; "expire"; "refund"; "prize"; "lottery"; "password"; "otp";
    "click"; "link"; "credit card"; "debit card"; "pin"; "cvv"; "police";
    "cbi"; "arrest"; "customs"; "fedex" ].

(** [[a-zA-Z0-9.\-_]] *)
Definition upi_local (c : ascii) : bool :=
  Py.is_lower_az c || Py.is_upper_az c || Py.is_digit c
  || Py.is_char "." c || Py.is_char "-" c || Py.is_char "_" c.

(** [[a-zA-Z._]] *)
Definition upi_domain (c : ascii) : bool :=
  Py.is_lower_az c || Py.is_upper_az c
  || Py.is_char "." c || Py.is_char "_" c.

(** [[\-\s]] *)
Definition dash_or_space (c : ascii) : bool :=
  Py.is_char "-" c || Py.is_space c.

(** [[-\w.]] *)
Definition host_char (c : ascii) : bool :=
  Py.is_char "-" c || Py.is_word c || Py.is_char "." c.

(** [[\da-fA-F]] *)
Definition hex_char (c : ascii) : bool :=
  Py.is_digit c || Py.between 97 102 c || Py.between 65 70 c.

(** [[^\s]] *)
Definition not_space (c : ascii) : bool := negb (Py.is_space c).

(** [[a-zA-Z0-9.\-_]{2,49}@[a-zA-Z._]{2,49}] *)
Definition pat_upiIds : Re.regex :=
  Re.times 2 49 (Re.Cls upi_local) ⋅ Re.Chr "@"
  ⋅ Re.times 2 49 (Re.Cls upi_domain).

(** [(?:\+91[\-\s]?)?[6-9]\d{9}\b] *)
Definition pat_phoneNumbers : Re.regex :=
  Re.opt (Re.lit "+91" ⋅ Re.opt (Re.Cls dash_or_space))
  ⋅ Re.Cls (Py.between 54 57) ⋅ Re.times 9 9 (Re.Cls Py.is_digit) ⋅ Re.Bnd.

(** [\b\d{9,18}\b] *)
Definition pat_bankAccounts : Re.regex :=
  Re.Bnd ⋅ Re.times 9 18 (Re.Cls Py.is_digit) ⋅ Re.Bnd.

(** [https?://(?:[-\w.]|(?:%[\da-fA-F]{2}))+[^\s]*] *)
Definition pat_phishingLinks : Re.regex :=
  Re.lit "http" ⋅ Re.opt (Re.Chr "s") ⋅ Re.lit "://"
  ⋅ Re.plus (Re.Alt (Re.Cls host_char)
                    (Re.Chr "%" ⋅ Re.times 2 2 (Re.Cls hex_char)))
  ⋅ Re.star (Re.Cls not_space).

Definition detect_scam (text : string) : bool :=
  let text_lower := Py.lower text in
  if existsb (fun k => Py.str_in k text_lower) KEYWORDS_SCAM then true
  else if Re.search_bool pat_phishingLinks text
          || Re.search_bool pat_upiIds text then true
  else false.

(** The intelligence dictionary of a session: five lists of strings. *)
Record Intelligence : Type := mkIntelligence {
  bankAccounts : list string;
  upiIds : list string;
  phishingLinks : list string;
  phoneNumbers : list string;
  suspiciousKeywords : list string
}.

(** The keys of the intelligence dictionary. *)
Inductive IntelKey : Type :=
| K_bankAccounts | K_upiIds | K_phishingLinks | K_phoneNumbers
| K_suspiciousKeywords.

(** [session_intel[key]] *)
Definition intel_get (key : IntelKey) (i : Intelligence) : list string :=
  match key with
  | K_bankAccounts => bankAccounts i
  | K_upiIds => upiIds i
  | K_phishingLinks => phishingLinks i
  | K_phoneNumbers => phoneNumbers i
  | K_suspiciousKeywords => suspiciousKeywords i
  end.

(** The same dictionary with the list under [key] replaced by [l]. *)
Definition intel_set (key : IntelKey) (l : list string) (i : Intelligence)
  : Intelligence :=
  match key with
  | K_bankAccounts =>
      mkIntelligence l (upiIds i) (phishingLinks i) (phoneNumbers i)
        (suspiciousKeywords i)
  | K_upiIds =>
      mkIntelligence (bankAccounts i) l (phishingLinks i) (phoneNumbers i)
        (suspiciousKeywords i)
  | K_phishingLinks =>
      mkIntelligence (bankAccounts i) (upiIds i) l (phoneNumbers i)
        (suspiciousKeywords i)
  | K_phoneNumbers =>
      mkIntelligence (bankAccounts i) (upiIds i) (phishingLinks i) l
        (suspiciousKeywords i)
  | K_suspiciousKeywords =>
      mkIntelligence (bankAccounts i) (upiIds i) (phishingLinks i)
        (phoneNumbers i) l
  end.

(** REGEX_PATTERNS, in the order in which the dictionary is iterated. *)
Definition REGEX_PATTERNS : list (IntelKey * Re.regex) :=
  [ (K_upiIds, pat_upiIds);
    (K_phoneNumbers, pat_phoneNumbers);
    (K_bankAccounts, pat_bankAccounts);
    (K_phishingLinks, pat_phishingLinks) ].

(** [for match in matches: if match not in l: l.append(match)] *)
Definition append_new (l : list string) (matches : list string)
  : list string :=
  fold_left (fun acc m => if Py.list_in m acc then acc else acc ++ [m])
    matches l.

(** [[k for k in KEYWORDS_SCAM if k in text.lower()]] *)
Definition found_keywords (text : string) : list string :=
  List.filter (fun k => Py.str_in k (Py.lower text)) KEYWORDS_SCAM.

Definition extract_and_update_intelligence (session_intel : Intelligence)
  (text : string) : Intelligence :=
  let session_intel :=
    fold_left
      (fun intel '(key, pattern) =>
         let matches := Re.findall pattern text in
         intel_set key (append_new (intel_get key intel) matches) intel)
      REGEX_PATTERNS session_intel in
  intel_set K_suspiciousKeywords
    (append_new (intel_get K_suspiciousKeywords session_intel)
       (found_keywords text))
    session_intel.

(** ** Configuration and session state (lines 16-32, 74-94, 197-206) *)

(** The settings read from the environment at start-up. *)
Record Config : Type := mkConfig {
  HONEYPOT_API_KEY : string;         (* default "YOUR_SECRET_API_KEY" *)
  LLM_API_KEY : option string        (* [None] when the variable is unset *)
}.

Definition CALLBACK_MESSAGE_THRESHOLD : nat := 10.

Definition SESSION_TIMEOUT_SECONDS : Z := 1800.

(** A [datetime] is a number of microseconds. *)
Definition microseconds_per_second : Z := 1000000.

(** The [timestamp] of a history entry is a string: the one stated by the
    request, or [now.isoformat() + "Z"] for a clock reading [now]. *)
Inductive Timestamp : Type :=
| Stated (s : string)
| IsoZ (now : Z).

(** An entry of [history]. *)
Record Turn : Type := mkTurn {
  sender : string;
  text : string;
  timestamp : Timestamp
}.

Record Session : Type := mkSession {
  history : list Turn;
  intelligence : Intelligence;
  last_active : Z;
  callback_sent : bool;
  scam_detected : bool
}.

Definition set_history (h : list Turn) (s : Session) : Session :=
  mkSession h (intelligence s) (last_active s) (callback_sent s)
    (scam_detected s).

Definition set_intelligence (i : Intelligence) (s : Session) : Session :=
  mkSession (history s) i (last_active s) (callback_sent s) (scam_detected s).

Definition set_last_active (t : Z) (s : Session) : Session :=
  mkSession (history s) (intelligence s) t (callback_sent s)
    (scam_detected s).

Definition set_callback_sent (b : bool) (s : Session) : Session :=
  mkSession (history s) (intelligence s) (last_active s) b (scam_detected s).

Definition set_scam_detected (b : bool) (s : Session) : Session :=
  mkSession (history s) (intelligence s) (last_active s) (callback_sent s) b.

Definition empty_intelligence : Intelligence := mkIntelligence [] [] [] [] [].

(** [utcnow] is the clock reading taken inside the function. *)
Definition init_new_session_state (utcnow : Z) : Session :=
  mkSession [] empty_intelligence utcnow false false.

(** The request body; [conversationHistory] and [metadata] are never read
    by the handler and are left out. *)
Record MessageModel : Type := mkMessage {
  msg_sender : string;
  msg_text : string;
  msg_timestamp : string
}.

Record RequestBody : Type := mkRequest {
  sessionId : string;
  message : MessageModel
}.

Record AgentResponse : Type := mkResponse {
  resp_status : string;
  resp_reply : string;
  resp_scam_detected : bool;
  resp_intelligence : Intelligence
}.

(** ** The reply generator (lines 131-179) *)

(** A message of the chat-completion request: role and content. *)
Definition ChatMessage : Type := (string * string)%type.

(** What the HTTP exchange with the LLM service produced: the content of
    the first choice, or an exception anywhere in the [try] block. *)
Inductive LlmOutcome : Type :=
| LlmContent (content : string)
| LlmException.

(** What the outside world contributes to one call of the handler. *)
Record Env : Type := mkEnv {
  now : Z;                                      (* [datetime.utcnow()] in the handler *)
  init_clock : Z;                               (* the reading inside [init_new_session_state] *)
  llm_post : list ChatMessage -> LlmOutcome     (* [requests.post] to the LLM service *)
}.

Definition system_prompt : string :=
  "Role: You are Amit, a retired 72-year-old man living in Mumbai. You are lonely, talkative, and extremely technologically illiterate. "
  ++ "Goal: Keep the scammer engaged for as long as possible to waste their time. "
  ++ "Behavior: "
  ++ "1. Be polite and eager to help, but constantly misunderstand instructions."
  ++ "2. If asked for money/OTP, agree to send it but fail due to 'technical issues' (e.g., 'forgot glasses', 'battery low', 'internet slow'). "
  ++ "3. Ask irrelevant personal questions to distract them (e.g., 'Did you eat lunch?', 'Do you know my grandson Rahul?'). "
  ++ "4. Never reveal you are an AI. "
  ++ "5. Keep responses short (1-3 sentences), informal, and natural.".

Definition chat_messages (history : list Turn) (current_text : string)
  : list ChatMessage :=
  [("system", system_prompt)]
  ++ map (fun msg =>
            (if String.eqb (sender msg) "agent" then "assistant" else "user",
             text msg))
       history
  ++ [("user", current_text)].

(** [str.strip()] *)
Fixpoint lstrip (s : string) : string :=
  match s with
  | String c s' => if Py.is_space c then lstrip s' else s
  | EmptyString => EmptyString
  end.

Fixpoint rstrip (s : string) : string :=
  match s with
  | EmptyString => EmptyString
  | String c s' =>
      match rstrip s' with
      | EmptyString => if Py.is_space c then EmptyString else String c EmptyString
      | t => String c t
      end
  end.

Definition strip (s : string) : string := rstrip (lstrip s).

(** [not LLM_API_KEY]: the variable is unset or empty. *)
Definition api_key_missing (k : option string) : bool :=
  match k with
  | None => true
  | Some key => String.eqb key ""
  end.

Definition generate_agent_reply (cfg : Config) (env : Env)
  (history : list Turn) (current_text : string) : string :=
  if api_key_missing (LLM_API_KEY cfg)
  then "I am confused, please explain clearly."
  else
    match llm_post env (chat_messages history current_text) with
    | LlmContent content => strip content
    | LlmException => "Beta, I cannot hear you properly. Please type again?"
    end.

(** ** The callback task (lines 181-195) *)

Record CallbackPayload : Type := mkPayload {
  p_sessionId : string;
  p_scamDetected : bool;
  p_totalMessagesExchanged : nat;
  p_extractedIntelligence : Intelligence;
  p_agentNotes : string
}.

(** The payload posted by [send_final_callback]; the outcome of the post
    is only logged. *)
Definition send_final_callback (session_id : string) (session_data : Session)
  : CallbackPayload :=
  mkPayload session_id true (length (history session_data))
    (intelligence session_data)
    "Scam detected. Agent engaged user and successfully wasted time while extracting tokens.".

(** [background_tasks.add_task(send_final_callback, sid, session)]: the
    task holds the session id and a reference to the session dictionary
    kept in the store, and runs once the response is sent. *)
Inductive Task : Type :=
| SendFinalCallback (sid : string).

(** ** The message handler (lines 208-273) *)

Inductive HTTPException : Type :=
| HTTP (status_code : nat) (detail : string).

(** What a call that returns normally leaves behind: the store, the
    response, the calls of [generate_agent_reply] it made (history and
    text passed) and the background tasks it scheduled. *)
Record Outcome : Type := mkOutcome {
  out_store : gmap string Session;
  out_response : AgentResponse;
  out_agent_calls : list (list Turn * string);
  out_tasks : list Task
}.

Inductive Result : Type :=
| Raised (e : HTTPException)
| Returned (o : Outcome).

Definition timed_out (now last_active : Z) : bool :=
  (SESSION_TIMEOUT_SECONDS * microseconds_per_second <? now - last_active)%Z.

(** Step 2 of the handler (lines 222-232): the session the rest of the
    handler works on, with its activity timestamp already updated.  Every
    session of the store carries [last_active], so the default of
    [.get("last_active", now)] is never used. *)
Definition resolve_session (env : Env) (session_store : gmap string Session)
  (sid : string) : Session :=
  let session :=
    match session_store !! sid with
    | Some stored =>
        if timed_out (now env) (last_active stored)
        then init_new_session_state (init_clock env)
        else stored
    | None => init_new_session_state (init_clock env)
    end in
  set_last_active (now env) session.

(** The two entries appended to the history by one message. *)
Definition scammer_turn (body : RequestBody) : Turn :=
  mkTurn "scammer" (msg_text (message body)) (Stated (msg_timestamp (message body))).

Definition agent_turn (env : Env) (reply_text : string) : Turn :=
  mkTurn "agent" reply_text (IsoZ (now env)).

(** Step 6: the condition under which the callback is scheduled. *)
Definition callback_due (session : Session) : bool :=
  scam_detected session
  && (CALLBACK_MESSAGE_THRESHOLD <=? length (history session))
  && negb (callback_sent session).

(** Steps 2 to 6 and the response, for an authenticated request. *)
Definition handle_message (cfg : Config) (env : Env)
  (session_store : gmap string Session) (body : RequestBody) : Outcome :=
  let sid := sessionId body in
  (* 2. Session Management (Timeout Check) *)
  let session := resolve_session env session_store sid in
  let incoming_text := msg_text (message body) in
  (* 3. Detect Scam *)
  let is_scam := detect_scam incoming_text in
  let session := if is_scam then set_scam_detected true session else session in
  (* 4. Extract Intelligence *)
  let session :=
    set_intelligence
      (extract_and_update_intelligence (intelligence session) incoming_text)
      session in
  (* 5. Agent Response Logic *)
  let should_activate_agent :=
    scam_detected session || (0 <? length (history session)) in
  if should_activate_agent then
    let reply_text :=
      generate_agent_reply cfg env (history session) incoming_text in
    let agent_calls := [(history session, incoming_text)] in
    let session :=
      set_history (history session ++ [scammer_turn body]) session in
    let session :=
      set_history (history session ++ [agent_turn env reply_text]) session in
    (* 6. Callback Trigger *)
    let '(tasks, session) :=
      if callback_due session
      then ([SendFinalCallback sid], set_callback_sent true session)
      else ([], session) in
    mkOutcome (<[sid := session]> session_store)
      (mkResponse "success" reply_text (scam_detected session)
         (intelligence session))
      agent_calls tasks
  else
    (* Default neutral response *)
    let reply_text := "Who is this?" in
    let session :=
      set_history (history session ++ [scammer_turn body]) session in
    let session :=
      set_history (history session ++ [agent_turn env reply_text]) session in
    mkOutcome (<[sid := session]> session_store)
      (mkResponse "success" reply_text (scam_detected session)
         (intelligence session))
      [] [].

Definition chat_handler (cfg : Config) (env : Env)
  (session_store : gmap string Session) (body : RequestBody)
  (x_api_key : string) : Result :=
  (* 1. Authentication *)
  if negb (String.eqb x_api_key (HONEYPOT_API_KEY cfg))
  then Raised (HTTP 401 "Invalid or Missing API Key")
  else Returned (handle_message cfg env session_store body).

(** ** Sequences of calls *)

(** One call of the endpoint with what the outside world contributes. *)
Record Call : Type := mkCall {
  call_env : Env;
  call_body : RequestBody;
  call_key : string
}.

Definition store_after (session_store : gmap string Session) (r : Result)
  : gmap string Session :=
  match r with
  | Raised _ => session_store
  | Returned o => out_store o
  end.

Definition step (cfg : Config) (session_store : gmap string Session)
  (c : Call) : Result :=
  chat_handler cfg (call_env c) session_store (call_body c) (call_key c).

(** The results of a sequence of calls served one after the other, and
    the store they leave. *)
Fixpoint run (cfg : Config) (session_store : gmap string Session)
  (calls : list Call) : list Result * gmap string Session :=
  match calls with
  | [] => ([], session_store)
  | c :: calls' =>
      let r := step cfg session_store c in
      let '(rs, final) := run cfg (store_after session_store r) calls' in
      (r :: rs, final)
  end.

(** The stores the server can be in: it starts with an empty store and
    serves calls. *)
Inductive reachable (cfg : Config) : gmap string Session -> Prop :=
| reachable_start : reachable cfg ∅
| reachable_step (session_store : gmap string Session) (c : Call) :
    reachable cfg session_store ->
    reachable cfg (store_after session_store (step cfg session_store c)).

(** The payload a scheduled task posts when it runs right after the call
    that scheduled it. *)
Definition task_payload (session_store : gmap string Session) (t : Task)
  : option CallbackPayload :=
  match t with
  | SendFinalCallback sid => send_final_callback sid <$> session_store !! sid
  end.

(** ** What the specification says about a category list

    "Each newly found value is appended to the corresponding category set
    only if not already present", the list being "an insertion-ordered
    sequence of unique strings": the values found, each at the place of
    its first occurrence. *)
Fixpoint first_occurrences (ms : list string) : list string :=
  match ms with
  | [] => []
  | m :: ms' =>
      m :: List.filter (fun x => negb (String.eqb x m)) (first_occurrences ms')
  end.

(** The values found that the list does not hold yet. *)
Definition newly_found (l ms : list string) : list string :=
  List.filter (fun m => negb (Py.list_in m l)) ms.

(** What one call of the extractor finds for a category. *)
Definition category_matches (key : IntelKey) (text : string) : list string :=
  match key with
  | K_upiIds => Re.findall pat_upiIds text
  | K_phoneNumbers => Re.findall pat_phoneNumbers text
  | K_bankAccounts => Re.findall pat_bankAccounts text
  | K_phishingLinks => Re.findall pat_phishingLinks text
  | K_suspiciousKeywords => found_keywords text
  end.

(** No category list of [i] holds a value twice. *)
Definition intel_NoDup (i : Intelligence) : Prop :=
  forall key, NoDup (intel_get key i).

(** ** One message, seen from the session it is processed on *)

(** The flag after step 3. *)
Definition flag_after (env : Env) (st : gmap string Session)
  (body : RequestBody) : bool :=
  scam_detected (resolve_session env st (sessionId body))
  || detect_scam (msg_text (message body)).

(** The decision of step 5. *)
Definition should_activate_agent (env : Env) (st : gmap string Session)
  (body : RequestBody) : bool :=
  flag_after env st body
  || (0 <? length (history (resolve_session env st (sessionId body)))).

Definition reply_text (cfg : Config) (env : Env) (st : gmap string Session)
  (body : RequestBody) : string :=
  if should_activate_agent env st body
  then generate_agent_reply cfg env
         (history (resolve_session env st (sessionId body)))
         (msg_text (message body))
  else "Who is this?".

Definition history_after (cfg : Config) (env : Env)
  (st : gmap string Session) (body : RequestBody) : list Turn :=
  history (resolve_session env st (sessionId body))
  ++ [scammer_turn body; agent_turn env (reply_text cfg env st body)].

(** The condition of step 6 at the time it is evaluated. *)
Definition callback_fires (cfg : Config) (env : Env)
  (st : gmap string Session) (body : RequestBody) : bool :=
  flag_after env st body
  && (CALLBACK_MESSAGE_THRESHOLD <=? length (history_after cfg env st body))
  && negb (callback_sent (resolve_session env st (sessionId body))).

(** The session as the call leaves it in the store. *)
Definition session_after (cfg : Config) (env : Env)
  (st : gmap string Session) (body : RequestBody) : Session :=
  mkSession (history_after cfg env st body)
    (extract_and_update_intelligence
       (intelligence (resolve_session env st (sessionId body)))
       (msg_text (message body)))
    (now env)
    (callback_sent (resolve_session env st (sessionId body))
     || callback_fires cfg env st body)
    (flag_after env st body).

(** A session in its initial state, resolved at the clock reading of [env]. *)
Definition fresh_session (env : Env) : Session :=
  mkSession [] (mkIntelligence [] [] [] [] []) (now env) false false.

(** ** Calls *)

(** The key check of step 1. *)
Definition accepted (cfg : Config) (c : Call) : bool :=
  String.eqb (call_key c) (HONEYPOT_API_KEY cfg).

Definition call_sid (c : Call) : string := sessionId (call_body c).

(** The tasks scheduled by a call. *)
Definition tasks_of (r : Result) : list Task :=
  match r with
  | Raised _ => []
  | Returned o => out_tasks o
  end.

(** ** Observations on stores and results *)

(** The callback flag of a session tells whether the session is flagged
    with a history that has reached the threshold. *)
Definition flag_consistent (s : Session) : Prop :=
  callback_sent s
  = scam_detected s && (CALLBACK_MESSAGE_THRESHOLD <=? length (history s)).

(** The session's [callback_sent]; no session, nothing sent. *)
Definition sent (sid : string) (st : gmap string Session) : bool :=
  match st !! sid with
  | Some s => callback_sent s
  | None => false
  end.

(** The session's [scam_detected]; no session, nothing detected. *)
Definition detected (sid : string) (st : gmap string Session) : bool :=
  match st !! sid with
  | Some s => scam_detected s
  | None => false
  end.

(** The length of the session's history. *)
Definition history_length (sid : string) (st : gmap string Session) : nat :=
  match st !! sid with
  | Some s => length (history s)
  | None => 0
  end.

(** The session is flagged and its history has reached the threshold. *)
Definition qualifies (sid : string) (st : gmap string Session) : bool :=
  detected sid st && (CALLBACK_MESSAGE_THRESHOLD <=? history_length sid st).

Definition task_sid (t : Task) : string :=
  match t with
  | SendFinalCallback sid => sid
  end.

(** The call scheduled the callback of session [sid]. *)
Definition fires (sid : string) (r : Result) : bool :=
  existsb (fun t => String.eqb (task_sid t) sid) (tasks_of r).

(** The number of calls that scheduled the callback of session [sid]. *)
Definition fired_turns (sid : string) (rs : list Result) : nat :=
  length (List.filter (fires sid) rs).

(** The history of the session; no session, no history. *)
Definition stored_history (sid : string) (st : gmap string Session)
  : list Turn :=
  match st !! sid with
  | Some s => history s
  | None => []
  end.

(** The session exists and has been idle for longer than the timeout at
    the clock reading of [env]. *)
Definition expired (env : Env) (st : gmap string Session) (sid : string)
  : bool :=
  match st !! sid with
  | Some s => timed_out (now env) (last_active s)
  | None => false
  end.

(** The call is processed and finds its session expired. *)
Definition resets (cfg : Config) (st : gmap string Session) (c : Call) : bool :=
  accepted cfg c && expired (call_env c) st (call_sid c).

(** No call of the sequence resets session [sid]. *)
Fixpoint no_reset (cfg : Config) (sid : string) (st : gmap string Session)
  (calls : list Call) : bool :=
  match calls with
  | [] => true
  | c :: calls' =>
      negb (String.eqb (call_sid c) sid && resets cfg st c)
      && no_reset cfg sid (store_after st (step cfg st c)) calls'
  end.

(** The length of the history of session [sid] after each call. *)
Fixpoint history_lengths (cfg : Config) (sid : string)
  (st : gmap string Session) (calls : list Call) : list nat :=
  match calls with
  | [] => []
  | c :: calls' =>
      let st' := store_after st (step cfg st c) in
      history_length sid st' :: history_lengths cfg sid st' calls'
  end.

(** The call is processed and addressed to session [sid]. *)
Definition addressed (cfg : Config) (sid : string) (c : Call) : Prop :=
  accepted cfg c = true /\ call_sid c = sid.

Definition call_text (c : Call) : string := msg_text (message (call_body c)).

(** ** The shape of the values of each category *)

(** Nine to eighteen decimal digits. *)
Definition account_shape (m : string) : Prop :=
  all_chars Py.is_digit m = true
  /\ 9 <= String.length m /\ String.length m <= 18.

(** Ten decimal digits, the first one from 6 to 9, after nothing, "+91",
    or "+91" and one dash or whitespace character. *)
Definition phone_shape (m : string) : Prop :=
  exists pre c d,
    m = pre +:+ String c d
    /\ (pre = "" \/ pre = "+91"
        \/ exists x, dash_or_space x = true /\ pre = "+91" +:+ String x "")
    /\ Py.between 54 57 c = true
    /\ all_chars Py.is_digit d = true
    /\ String.length d = 9.

(** Two to 49 characters of the local class, "@", two to 49 characters of
    the domain class. *)
Definition upi_shape (m : string) : Prop :=
  exists l d,
    m = l +:+ "@" +:+ d
    /\ all_chars upi_local l = true
    /\ 2 <= String.length l /\ String.length l <= 49
    /\ all_chars upi_domain d = true
    /\ 2 <= String.length d /\ String.length d <= 49.

(** "http://" or "https://" followed by at least one character, without
    any whitespace. *)
Definition link_shape (m : string) : Prop :=
  exists rest,
    (m = "http://" +:+ rest \/ m = "https://" +:+ rest)
    /\ rest <> ""
    /\ all_chars not_space m = true.

Definition category_shape (key : IntelKey) (m : string) : Prop :=
  match key with
  | K_bankAccounts => account_shape m
  | K_upiIds => upi_shape m
  | K_phishingLinks => link_shape m
  | K_phoneNumbers => phone_shape m
  | K_suspiciousKeywords => m ∈ KEYWORDS_SCAM
  end.

(** The text in which the values of a category are looked for. *)
Definition category_subject (key : IntelKey) (text : string) : string :=
  match key with
  | K_suspiciousKeywords => Py.lower text
  | _ => text
  end.

(** ** Concrete data used to exercise the statements *)

Module Sample.

Definition cfg : Config := mkConfig "YOUR_SECRET_API_KEY" None.

(** A call environment whose clock reads [t] seconds. *)
Definition env_at (t : Z) : Env :=
  mkEnv (t * 1000000) (t * 1000000) (fun _ => LlmException).

Definition body_of (sid text : string) : RequestBody :=
  mkRequest sid (mkMessage "scammer" text "2026-01-01T10:00:00Z").

Definition call_at (t : Z) (sid text : string) : Call :=
  mkCall (env_at t) (body_of sid text) "YOUR_SECRET_API_KEY".

Definition scam_text : string :=
  "Your KYC is blocked, pay to upi id john@upi or verify at http://bit.ly/x".

(** A session last active at second 0 that has seen a scam. *)
Definition old_session : Session :=
  mkSession
    [mkTurn "scammer" "pay now" (Stated "t0"); mkTurn "agent" "what?" (IsoZ 0)]
    (mkIntelligence [] [] [] [] ["pay"]) 0 false true.

Definition old_store : gmap string Session := {["s1" := old_session]}.

(** Five flagged messages to one session, one second apart. *)
Definition five_calls : list Call :=
  map (fun t => call_at t "s1" scam_text) [0; 1; 2; 3; 4]%Z.

(** Six flagged messages to one session, one second apart. *)
Definition six_calls : list Call :=
  map (fun t => call_at t "s1" scam_text) [0; 1; 2; 3; 4; 5]%Z.

(** A message with a value of every category. *)
Definition rich_text : string :=
  "URGENT: pay john@upi via http://bit.ly/x or call +91-9876543210, a/c 123456789012".

Definition rich_store : gmap string Session :=
  snd (run cfg ∅ [call_at 0 "s2" rich_text]).

(** The session of [st] under [sid], or an initial one. *)
Definition session_of (st : gmap string Session) (sid : string) : Session :=
  match st !! sid with
  | Some s => s
  | None => init_new_session_state 0
  end.

End Sample.

(** * Properties *)

(** ** Membership tests *)

Lemma list_in_spec (x : string) (l : list string) :
  Py.list_in x l = true <-> x ∈ l.
Proof.
  unfold Py.list_in. rewrite existsb_exists. split.
  - intros (y & Hy & Heq). apply String.eqb_eq in Heq. subst y.
    by apply list_elem_of_In.
  - intros Hx. exists x. split; [by apply list_elem_of_In|apply String.eqb_refl].
Qed.

Lemma list_in_false (x : string) (l : list string) :
  Py.list_in x l = false <-> x ∉ l.
Proof.
  rewrite <- list_in_spec. destruct (Py.list_in x l); split; congruence.
Qed.

Lemma list_in_app (x : string) (l1 l2 : list string) :
  Py.list_in x (l1 ++ l2) = Py.list_in x l1 || Py.list_in x l2.
Proof. unfold Py.list_in. apply existsb_app. Qed.

(** ** The inner loop of the extractor *)

Section AppendNew.

Implicit Types l ms : list string.

Lemma append_new_nil l : append_new l [] = l.
Proof. reflexivity. Qed.

Lemma append_new_cons l m ms :
  append_new l (m :: ms) =
  append_new (if Py.list_in m l then l else l ++ [m]) ms.
Proof. reflexivity. Qed.

Lemma append_new_prefix l ms : l `prefix_of` append_new l ms.
Proof.
  revert l. induction ms as [|m ms IH]; intros l.
  - done.
  - rewrite append_new_cons. destruct (Py.list_in m l); [apply IH|].
    etrans; [|apply IH]. by apply prefix_app_r.
Qed.

Lemma append_new_elem l ms x :
  x ∈ append_new l ms <-> x ∈ l ∨ x ∈ ms.
Proof.
  revert l. induction ms as [|m ms IH]; intros l.
  - rewrite append_new_nil. set_solver.
  - rewrite append_new_cons, IH.
    destruct (Py.list_in m l) eqn:Hm.
    + apply list_in_spec in Hm. set_solver.
    + set_solver.
Qed.

Lemma append_new_NoDup l ms : NoDup l -> NoDup (append_new l ms).
Proof.
  revert l. induction ms as [|m ms IH]; intros l Hl.
  - done.
  - rewrite append_new_cons. apply IH.
    destruct (Py.list_in m l) eqn:Hm; [done|].
    apply list_in_false in Hm. apply NoDup_app. split; [done|].
    split; [|apply NoDup_singleton]. set_solver.
Qed.

(** Values that are all present already leave the list as it is. *)
Lemma append_new_absorb l ms : (forall m, m ∈ ms -> m ∈ l) -> append_new l ms = l.
Proof.
  revert l. induction ms as [|m ms IH]; intros l Hall.
  - done.
  - rewrite append_new_cons.
    assert (Py.list_in m l = true) as ->
        by (apply list_in_spec, Hall; set_solver).
    apply IH. set_solver.
Qed.

Lemma append_new_idempotent l ms :
  append_new (append_new l ms) ms = append_new l ms.
Proof.
  apply append_new_absorb. intros m Hm. apply append_new_elem. by right.
Qed.

Lemma filter_swap (p q : string -> bool) (xs : list string) :
  List.filter p (List.filter q xs) = List.filter q (List.filter p xs).
Proof.
  induction xs as [|x xs IH]; [done|]. cbn [List.filter].
  destruct (p x) eqn:Hp, (q x) eqn:Hq; cbn [List.filter];
    rewrite ?Hp, ?Hq, IH; done.
Qed.

Lemma filter_drop_rejected (p : string -> bool) (m : string)
  (xs : list string) :
  p m = false ->
  List.filter p (List.filter (fun x => negb (String.eqb x m)) xs)
  = List.filter p xs.
Proof.
  intros Hp. induction xs as [|x xs IH]; [done|]. cbn [List.filter].
  destruct (String.eqb x m) eqn:Hx; cbn [negb List.filter].
  - apply String.eqb_eq in Hx. subst x. by rewrite Hp.
  - by rewrite IH.
Qed.

Lemma first_occurrences_filter (p : string -> bool) ms :
  first_occurrences (List.filter p ms) = List.filter p (first_occurrences ms).
Proof.
  induction ms as [|m ms IH]; [done|]. cbn [List.filter first_occurrences].
  destruct (p m) eqn:Hp; cbn [List.filter first_occurrences].
  - by rewrite IH, filter_swap.
  - by rewrite IH, filter_drop_rejected.
Qed.

(** The loop appends the values not held yet, each once, in the order
    in which they first occur. *)
Lemma append_new_first_seen l ms :
  append_new l ms = l ++ first_occurrences (newly_found l ms).
Proof.
  revert l. induction ms as [|m ms IH]; intros l.
  - by rewrite append_new_nil, app_nil_r.
  - rewrite append_new_cons. unfold newly_found. cbn [List.filter].
    destruct (Py.list_in m l) eqn:Hm; cbn [negb].
    + apply IH.
    + rewrite IH, <- app_assoc. cbn [app first_occurrences]. do 2 f_equal.
      rewrite <- first_occurrences_filter. f_equal. unfold newly_found.
      clear IH. induction ms as [|x ms IHms]; [done|]. cbn [List.filter].
      rewrite list_in_app. unfold Py.list_in at 2. cbn [existsb].
      rewrite orb_false_r, negb_orb.
      destruct (Py.list_in x l); cbn [negb andb List.filter]; [done|].
      destruct (x =? m)%string; cbn [negb]; by rewrite IHms.
Qed.

End AppendNew.

(** ** The extractor on the whole dictionary *)

Lemma intel_get_set_eq (key : IntelKey) (l : list string) (i : Intelligence) :
  intel_get key (intel_set key l i) = l.
Proof. by destruct key. Qed.

Lemma intel_get_set_ne (key key' : IntelKey) (l : list string)
  (i : Intelligence) :
  key <> key' -> intel_get key' (intel_set key l i) = intel_get key' i.
Proof. by destruct key, key'. Qed.

Lemma intel_ext (i j : Intelligence) :
  (forall key, intel_get key i = intel_get key j) -> i = j.
Proof.
  intros H. destruct i, j.
  pose proof (H K_bankAccounts). pose proof (H K_upiIds).
  pose proof (H K_phishingLinks). pose proof (H K_phoneNumbers).
  pose proof (H K_suspiciousKeywords). simpl in *. congruence.
Qed.

(** Each category list is updated by the inner loop with what the call
    finds for that category, independently of the other categories. *)
Lemma extract_get (key : IntelKey) (i : Intelligence) (text : string) :
  intel_get key (extract_and_update_intelligence i text)
  = append_new (intel_get key i) (category_matches key text).
Proof.
  unfold extract_and_update_intelligence, REGEX_PATTERNS, found_keywords.
  cbn [fold_left].
  destruct key; cbn [category_matches]; unfold found_keywords;
    generalize (Re.findall pat_upiIds text) as m_upi;
    generalize (Re.findall pat_phoneNumbers text) as m_phone;
    generalize (Re.findall pat_bankAccounts text) as m_bank;
    generalize (Re.findall pat_phishingLinks text) as m_link;
    generalize (List.filter (fun k => Py.str_in k (Py.lower text))
                  KEYWORDS_SCAM) as m_kw;
    intros; destruct i; reflexivity.
Qed.

Lemma extract_idempotent (i : Intelligence) (text : string) :
  extract_and_update_intelligence (extract_and_update_intelligence i text) text
  = extract_and_update_intelligence i text.
Proof.
  apply intel_ext. intros key.
  rewrite !extract_get. apply append_new_idempotent.
Qed.


Lemma empty_intelligence_NoDup : intel_NoDup empty_intelligence.
Proof. intros []; apply NoDup_nil_2. Qed.

Lemma extract_NoDup (i : Intelligence) (text : string) :
  intel_NoDup i -> intel_NoDup (extract_and_update_intelligence i text).
Proof.
  intros Hi key. rewrite extract_get. apply append_new_NoDup, Hi.
Qed.

(** ** One message, seen from the session it is processed on *)

Lemma handle_message_eq (cfg : Config) (env : Env)
  (st : gmap string Session) (body : RequestBody) :
  handle_message cfg env st body =
  mkOutcome (<[sessionId body := session_after cfg env st body]> st)
    (mkResponse "success" (reply_text cfg env st body) (flag_after env st body)
       (intelligence (session_after cfg env st body)))
    (if should_activate_agent env st body
     then [(history (resolve_session env st (sessionId body)),
            msg_text (message body))]
     else [])
    (if callback_fires cfg env st body
     then [SendFinalCallback (sessionId body)] else []).
Proof.
  unfold handle_message, session_after, callback_fires, history_after,
    reply_text, should_activate_agent, flag_after, callback_due.
  unfold resolve_session.
  generalize (match st !! sessionId body with
              | Some stored =>
                  if timed_out (now env) (last_active stored)
                  then init_new_session_state (init_clock env)
                  else stored
              | None => init_new_session_state (init_clock env)
              end).
  intros [h i t sent flag].
  cbv beta iota zeta delta
    [set_last_active set_scam_detected set_intelligence set_history
     set_callback_sent scam_detected history callback_sent intelligence
     last_active].
  destruct (detect_scam (msg_text (message body))), flag;
    cbv beta iota zeta delta
      [set_last_active set_scam_detected set_intelligence set_history
       set_callback_sent scam_detected history callback_sent intelligence
       last_active orb andb];
    rewrite <- ?app_assoc; cbn [app].
  1-3: destruct (CALLBACK_MESSAGE_THRESHOLD <=? _), sent; reflexivity.
  destruct (0 <? length h); cbv beta iota zeta delta [orb andb];
    rewrite <- ?app_assoc; cbn [app]; destruct sent; reflexivity.
Qed.

(** ** Session resolution *)


Lemma timed_out_spec (t last : Z) :
  timed_out t last = true
  <-> (t - last > SESSION_TIMEOUT_SECONDS * microseconds_per_second)%Z.
Proof. unfold timed_out. rewrite Z.ltb_lt. lia. Qed.

Lemma timed_out_false (t last : Z) :
  timed_out t last = false
  <-> (t - last <= SESSION_TIMEOUT_SECONDS * microseconds_per_second)%Z.
Proof. unfold timed_out. rewrite Z.ltb_ge. lia. Qed.

Lemma resolve_absent (env : Env) (st : gmap string Session) (sid : string) :
  st !! sid = None -> resolve_session env st sid = fresh_session env.
Proof. intros H. unfold resolve_session. by rewrite H. Qed.

Lemma resolve_expired (env : Env) (st : gmap string Session) (sid : string)
  (s : Session) :
  st !! sid = Some s -> timed_out (now env) (last_active s) = true ->
  resolve_session env st sid = fresh_session env.
Proof. intros H Ht. unfold resolve_session. by rewrite H, Ht. Qed.

Lemma resolve_live (env : Env) (st : gmap string Session) (sid : string)
  (s : Session) :
  st !! sid = Some s -> timed_out (now env) (last_active s) = false ->
  resolve_session env st sid = set_last_active (now env) s.
Proof. intros H Ht. unfold resolve_session. by rewrite H, Ht. Qed.

(** Resolution does not see whether an expired session is still stored. *)
Lemma resolve_delete_expired (env : Env) (st : gmap string Session)
  (sid : string) (s : Session) :
  st !! sid = Some s -> timed_out (now env) (last_active s) = true ->
  resolve_session env st sid = resolve_session env (delete sid st) sid.
Proof.
  intros H Ht. rewrite (resolve_expired _ _ _ _ H Ht).
  symmetry. apply resolve_absent, lookup_delete_eq.
Qed.

(** ** One call of the endpoint *)


Lemma step_accepted (cfg : Config) (st : gmap string Session) (c : Call) :
  accepted cfg c = true ->
  step cfg st c = Returned (handle_message cfg (call_env c) st (call_body c)).
Proof. unfold accepted, step, chat_handler. by intros ->. Qed.

Lemma step_rejected (cfg : Config) (st : gmap string Session) (c : Call) :
  accepted cfg c = false ->
  step cfg st c = Raised (HTTP 401 "Invalid or Missing API Key").
Proof. unfold accepted, step, chat_handler. by intros ->. Qed.

Lemma store_after_accepted (cfg : Config) (st : gmap string Session)
  (c : Call) :
  accepted cfg c = true ->
  store_after st (step cfg st c)
  = <[call_sid c := session_after cfg (call_env c) st (call_body c)]> st.
Proof.
  intros H. rewrite (step_accepted _ _ _ H), handle_message_eq. reflexivity.
Qed.

Lemma store_after_rejected (cfg : Config) (st : gmap string Session)
  (c : Call) :
  accepted cfg c = false -> store_after st (step cfg st c) = st.
Proof. intros H. by rewrite (step_rejected _ _ _ H). Qed.

(** A call leaves the sessions it is not addressed to untouched. *)
Lemma store_after_other (cfg : Config) (st : gmap string Session) (c : Call)
  (sid : string) :
  (accepted cfg c = false \/ call_sid c <> sid) ->
  store_after st (step cfg st c) !! sid = st !! sid.
Proof.
  destruct (accepted cfg c) eqn:Hacc.
  - intros [?|Hne]; [done|].
    rewrite (store_after_accepted _ _ _ Hacc). by apply lookup_insert_ne.
  - intros _. by rewrite (store_after_rejected _ _ _ Hacc).
Qed.

Lemma store_after_same (cfg : Config) (st : gmap string Session) (c : Call) :
  accepted cfg c = true ->
  store_after st (step cfg st c) !! call_sid c
  = Some (session_after cfg (call_env c) st (call_body c)).
Proof.
  intros Hacc. rewrite (store_after_accepted _ _ _ Hacc).
  apply lookup_insert_eq.
Qed.


Lemma tasks_of_accepted (cfg : Config) (st : gmap string Session) (c : Call) :
  accepted cfg c = true ->
  tasks_of (step cfg st c)
  = if callback_fires cfg (call_env c) st (call_body c)
    then [SendFinalCallback (call_sid c)] else [].
Proof.
  intros H. rewrite (step_accepted _ _ _ H), handle_message_eq. reflexivity.
Qed.

Lemma tasks_of_rejected (cfg : Config) (st : gmap string Session) (c : Call) :
  accepted cfg c = false -> tasks_of (step cfg st c) = [].
Proof. intros H. by rewrite (step_rejected _ _ _ H). Qed.


Lemma fires_accepted (cfg : Config) (st : gmap string Session) (c : Call)
  (sid : string) :
  accepted cfg c = true ->
  fires sid (step cfg st c)
  = callback_fires cfg (call_env c) st (call_body c)
    && String.eqb (call_sid c) sid.
Proof.
  intros H. unfold fires. rewrite (tasks_of_accepted _ _ _ H).
  destruct (callback_fires _ _ _ _); cbn; [apply orb_false_r|done].
Qed.

Lemma fires_rejected (cfg : Config) (st : gmap string Session) (c : Call)
  (sid : string) :
  accepted cfg c = false -> fires sid (step cfg st c) = false.
Proof. intros H. unfold fires. by rewrite (tasks_of_rejected _ _ _ H). Qed.

(** ** Sessions of reachable stores *)

Lemma resolve_cases (env : Env) (st : gmap string Session) (sid : string) :
  resolve_session env st sid = fresh_session env
  \/ exists s, st !! sid = Some s
               /\ timed_out (now env) (last_active s) = false
               /\ resolve_session env st sid = set_last_active (now env) s.
Proof.
  destruct (st !! sid) as [s|] eqn:Hs.
  - destruct (timed_out (now env) (last_active s)) eqn:Ht.
    + left. by eapply resolve_expired.
    + right. exists s. split; [done|]. split; [done|]. by apply resolve_live.
  - left. by apply resolve_absent.
Qed.

(** What resolution returns for a session that is not expired. *)
Lemma resolve_not_expired (env : Env) (st : gmap string Session)
  (sid : string) :
  expired env st sid = false ->
  callback_sent (resolve_session env st sid) = sent sid st
  /\ scam_detected (resolve_session env st sid) = detected sid st
  /\ history (resolve_session env st sid) = stored_history sid st
  /\ intelligence (resolve_session env st sid)
     = match st !! sid with
       | Some s => intelligence s
       | None => empty_intelligence
       end.
Proof.
  unfold expired, sent, detected, stored_history, resolve_session.
  destruct (st !! sid) as [s|]; [intros ->|]; done.
Qed.

(** What resolution returns for a session that is expired. *)
Lemma resolve_is_expired (env : Env) (st : gmap string Session)
  (sid : string) :
  expired env st sid = true ->
  resolve_session env st sid = fresh_session env.
Proof.
  unfold expired. destruct (st !! sid) as [s|] eqn:Hs; [|done].
  intros Ht. by eapply resolve_expired.
Qed.

(** A property of sessions that every call establishes for the session it
    leaves, given that the sessions it found had it, holds of every session
    of every reachable store. *)
Lemma reachable_sessions (cfg : Config) (P : Session -> Prop) :
  (forall env st body,
      (forall sid s, st !! sid = Some s -> P s) ->
      P (session_after cfg env st body)) ->
  forall st, reachable cfg st ->
  forall sid s, st !! sid = Some s -> P s.
Proof.
  intros Hstep st Hreach. induction Hreach as [|st c Hreach IH].
  - intros sid s Hs. by rewrite lookup_empty in Hs.
  - intros sid s.
    destruct (accepted cfg c) eqn:Hacc.
    + rewrite (store_after_accepted _ _ _ Hacc).
      destruct (decide (call_sid c = sid)) as [<-|Hne].
      * rewrite lookup_insert_eq. intros [= <-]. by apply Hstep.
      * rewrite lookup_insert_ne by done. apply IH.
    + rewrite (store_after_rejected _ _ _ Hacc). apply IH.
Qed.

Lemma reachable_run (cfg : Config) (st : gmap string Session)
  (calls : list Call) :
  reachable cfg st -> reachable cfg (snd (run cfg st calls)).
Proof.
  revert st. induction calls as [|c calls IH]; intros st Hst; [done|].
  cbn [run].
  destruct (run cfg (store_after st (step cfg st c)) calls) as [rs final] eqn:Hrun.
  cbn [snd]. specialize (IH _ (reachable_step cfg st c Hst)).
  by rewrite Hrun in IH.
Qed.

(** ** The report is dispatched at most once *)

(** A call that does not reset session [sid] either schedules its callback
    and raises its [callback_sent], or leaves the flag as it is. *)
Lemma step_sent_balance (cfg : Config) (sid : string)
  (st : gmap string Session) (c : Call) :
  String.eqb (call_sid c) sid && resets cfg st c = false ->
  Nat.b2n (fires sid (step cfg st c)) + Nat.b2n (sent sid st)
  = Nat.b2n (sent sid (store_after st (step cfg st c))).
Proof.
  intros Hno. unfold resets in Hno.
  destruct (accepted cfg c) eqn:Hacc.
  - rewrite (fires_accepted _ _ _ _ Hacc).
    destruct (String.eqb (call_sid c) sid) eqn:Hsid.
    + apply String.eqb_eq in Hsid. subst sid. cbn [andb] in Hno.
      unfold sent at 2. rewrite (store_after_same _ _ _ Hacc).
      cbn [callback_sent session_after]. rewrite andb_true_r.
      destruct (resolve_not_expired _ _ _ Hno) as (Hsent & _).
      unfold call_sid in *. unfold callback_fires. rewrite Hsent.
      destruct (sent (sessionId (call_body c)) st);
        rewrite ?andb_false_r, ?andb_true_r; cbn [negb orb Nat.b2n]; lia.
    + rewrite andb_false_r. cbn [Nat.b2n]. unfold sent.
      rewrite store_after_other; [done|].
      right. by apply String.eqb_neq.
  - rewrite (fires_rejected _ _ _ _ Hacc). unfold sent.
    rewrite store_after_other; [done|by left].
Qed.

Lemma run_sent_balance (cfg : Config) (sid : string) (calls : list Call) :
  forall st, no_reset cfg sid st calls = true ->
  fired_turns sid (fst (run cfg st calls)) + Nat.b2n (sent sid st)
  = Nat.b2n (sent sid (snd (run cfg st calls))).
Proof.
  induction calls as [|c calls IH]; intros st Hno; [done|].
  cbn [no_reset] in Hno. apply andb_true_iff in Hno as [Hc Hrest].
  apply negb_true_iff in Hc.
  cbn [run].
  destruct (run cfg (store_after st (step cfg st c)) calls) as [rs final] eqn:Hrun.
  cbn [fst snd]. specialize (IH _ Hrest). rewrite Hrun in IH. cbn [fst snd] in IH.
  pose proof (step_sent_balance cfg sid st c Hc) as Hstep.
  unfold fired_turns in *. cbn [List.filter].
  destruct (fires sid (step cfg st c)); cbn [length Nat.b2n] in *; lia.
Qed.

Lemma resolve_preserves (P : Session -> Prop) (env : Env)
  (st : gmap string Session) (sid : string) :
  P (fresh_session env) ->
  (forall s, P s -> P (set_last_active (now env) s)) ->
  (forall s, st !! sid = Some s -> P s) ->
  P (resolve_session env st sid).
Proof.
  intros Hfresh Hset Hst.
  destruct (resolve_cases env st sid) as [->|(s & Hs & _ & ->)]; [done|].
  apply Hset, Hst, Hs.
Qed.

Lemma history_after_length (cfg : Config) (env : Env)
  (st : gmap string Session) (body : RequestBody) :
  length (history_after cfg env st body)
  = length (history (resolve_session env st (sessionId body))) + 2.
Proof. unfold history_after. rewrite length_app. reflexivity. Qed.

(** In a reachable store a session has its callback flag set exactly when
    it is flagged and its history has reached the threshold. *)
Lemma reachable_flag_consistent (cfg : Config) (st : gmap string Session)
  (sid : string) (s : Session) :
  reachable cfg st -> st !! sid = Some s -> flag_consistent s.
Proof.
  revert st. revert sid s.
  cut (forall st, reachable cfg st ->
       forall sid s, st !! sid = Some s -> flag_consistent s).
  { intros H sid s st Hst. by apply H. }
  apply reachable_sessions. intros env st body Hst.
  assert (flag_consistent (resolve_session env st (sessionId body))) as Hres.
  { apply resolve_preserves; [done|by intros []|intros s; apply Hst]. }
  unfold flag_consistent in *. cbn [session_after callback_sent scam_detected history].
  unfold callback_fires, flag_after. rewrite history_after_length, Hres.
  unfold CALLBACK_MESSAGE_THRESHOLD.
  destruct (scam_detected (resolve_session env st (sessionId body)));
    destruct (detect_scam (msg_text (message body))); cbn [orb andb negb].
  1,2: destruct (10 <=? length _) eqn:H1; cbn [orb andb negb];
       [apply Nat.leb_le in H1; symmetry; apply Nat.leb_le; lia
       |by destruct (10 <=? _ + 2)].
  - by rewrite andb_true_r.
  - done.
Qed.

Lemma reachable_sent_qualifies (cfg : Config) (st : gmap string Session)
  (sid : string) :
  reachable cfg st -> sent sid st = qualifies sid st.
Proof.
  intros Hreach. unfold sent, qualifies, detected, history_length.
  destruct (st !! sid) as [s|] eqn:Hs; [|done].
  apply (reachable_flag_consistent cfg st sid s Hreach Hs).
Qed.

(** C1: over any sequence of calls that does not reset session [sid], the
    callback of [sid] is scheduled by at most one call; a session whose
    [callback_sent] is already set keeps it set and gets no further
    callback; and when the server, started from a reachable store in which
    the callback of [sid] has not been sent, ends with [sid] flagged and
    its history at the threshold or beyond, exactly one call scheduled the
    callback. *)
Theorem at_most_once_report (cfg : Config) (sid : string)
  (st : gmap string Session) (calls : list Call) :
  no_reset cfg sid st calls = true ->
  fired_turns sid (fst (run cfg st calls)) <= 1
  /\ (sent sid st = true ->
      fired_turns sid (fst (run cfg st calls)) = 0
      /\ sent sid (snd (run cfg st calls)) = true)
  /\ (fired_turns sid (fst (run cfg st calls)) = 1 ->
      sent sid (snd (run cfg st calls)) = true)
  /\ (reachable cfg st -> sent sid st = false ->
      qualifies sid (snd (run cfg st calls)) = true ->
      fired_turns sid (fst (run cfg st calls)) = 1).
Proof.
  intros Hno. pose proof (run_sent_balance cfg sid calls st Hno) as Hbal.
  split; [|split; [|split]].
  - destruct (sent sid (snd (run cfg st calls))); cbn [Nat.b2n] in Hbal; lia.
  - intros Hs. rewrite Hs in Hbal.
    destruct (sent sid (snd (run cfg st calls))); cbn [Nat.b2n] in Hbal;
      [split; [lia|done]|lia].
  - intros H1.
    destruct (sent sid (snd (run cfg st calls))); [done|].
    destruct (sent sid st); cbn [Nat.b2n] in Hbal; lia.
  - intros Hreach Hs Hq.
    rewrite <- (reachable_sent_qualifies cfg) in Hq
      by by apply reachable_run.
    rewrite Hs, Hq in Hbal. cbn [Nat.b2n] in Hbal. lia.
Qed.

(** Six flagged messages to a new session: the callback is scheduled by
    exactly one of the six calls. *)
Lemma at_most_once_report_witness :
  fired_turns "s1" (fst (run Sample.cfg ∅ Sample.six_calls)) = 1.
Proof.
  apply (at_most_once_report Sample.cfg "s1" ∅ Sample.six_calls).
  - vm_compute. reflexivity.
  - apply reachable_start.
  - reflexivity.
  - vm_compute. reflexivity.
Defined.

(** ** A session as a transition system *)

Lemma run_cons (cfg : Config) (st : gmap string Session) (c : Call)
  (calls : list Call) :
  run cfg st (c :: calls)
  = (step cfg st c :: fst (run cfg (store_after st (step cfg st c)) calls),
     snd (run cfg (store_after st (step cfg st c)) calls)).
Proof.
  cbn [run]. by destruct (run cfg (store_after st (step cfg st c)) calls).
Qed.

Lemma no_reset_cons (cfg : Config) (sid : string) (st : gmap string Session)
  (c : Call) (calls : list Call) :
  no_reset cfg sid st (c :: calls) = true ->
  addressed cfg sid c ->
  expired (call_env c) st sid = false
  /\ no_reset cfg sid (store_after st (step cfg st c)) calls = true.
Proof.
  cbn [no_reset]. intros [Hc Hrest]%andb_true_iff [Hacc Hsid].
  split; [|done]. apply negb_true_iff in Hc. unfold resets in Hc.
  rewrite Hacc, Hsid, String.eqb_refl in Hc. exact Hc.
Qed.

(** What a processed call does to the session it is addressed to when the
    session is not expired: the flag is or-ed with the classification, the
    history grows by two, and the callback is scheduled when the session
    is flagged, long enough and the callback was not sent before. *)
Lemma step_same_session (cfg : Config) (sid : string)
  (st : gmap string Session) (c : Call) :
  addressed cfg sid c ->
  expired (call_env c) st sid = false ->
  detected sid (store_after st (step cfg st c))
  = detected sid st || detect_scam (call_text c)
  /\ history_length sid (store_after st (step cfg st c))
     = history_length sid st + 2
  /\ fires sid (step cfg st c)
     = detected sid (store_after st (step cfg st c))
       && (CALLBACK_MESSAGE_THRESHOLD
           <=? history_length sid (store_after st (step cfg st c)))
       && negb (sent sid st)
  /\ sent sid (store_after st (step cfg st c))
     = sent sid st || fires sid (step cfg st c).
Proof.
  intros [Hacc <-] Hexp.
  destruct (resolve_not_expired _ _ _ Hexp) as (Hsent & Hdet & Hhist & _).
  unfold detected at 1 3, history_length at 1 3, sent at 2.
  rewrite (store_after_same _ _ _ Hacc), (fires_accepted _ _ _ _ Hacc).
  rewrite String.eqb_refl, andb_true_r.
  cbn [session_after scam_detected history callback_sent].
  unfold call_sid in *. rewrite Hsent.
  unfold callback_fires, flag_after, call_text.
  rewrite history_after_length, Hdet, Hsent, Hhist.
  unfold history_length, stored_history.
  destruct (st !! sessionId (call_body c)); done.
Qed.

(** ** The trigger condition *)

Lemma absent_observations (sid : string) (st : gmap string Session) :
  st !! sid = None ->
  detected sid st = false /\ history_length sid st = 0 /\ sent sid st = false.
Proof. unfold detected, history_length, sent. by intros ->. Qed.

(** The condition of step 6 read off the session the call leaves. *)
Lemma callback_fires_after (cfg : Config) (env : Env)
  (st : gmap string Session) (body : RequestBody) :
  callback_fires cfg env st body
  = scam_detected (session_after cfg env st body)
    && (CALLBACK_MESSAGE_THRESHOLD
        <=? length (history (session_after cfg env st body)))
    && negb (callback_sent (resolve_session env st (sessionId body))).
Proof. reflexivity. Qed.

(** Five processed calls to a session that starts absent, the first one
    classified as a scam, none resetting the session. *)
Lemma five_flagged_calls (cfg : Config) (sid : string)
  (st : gmap string Session) (c1 c2 c3 c4 c5 : Call) :
  st !! sid = None ->
  Forall (addressed cfg sid) [c1; c2; c3; c4; c5] ->
  detect_scam (call_text c1) = true ->
  no_reset cfg sid st [c1; c2; c3; c4; c5] = true ->
  map (fires sid) (fst (run cfg st [c1; c2; c3; c4; c5]))
  = [false; false; false; false; true]
  /\ history_lengths cfg sid st [c1; c2; c3; c4; c5] = [2; 4; 6; 8; 10].
Proof.
  intros Habs Hall Hscam Hno.
  destruct (absent_observations sid st Habs) as (D0 & L0 & S0).
  apply Forall_cons in Hall as [A1 Hall]. apply Forall_cons in Hall as [A2 Hall].
  apply Forall_cons in Hall as [A3 Hall]. apply Forall_cons in Hall as [A4 Hall].
  apply Forall_cons in Hall as [A5 _].
  rewrite !run_cons. cbn [fst snd map history_lengths run].
  set (st1 := store_after st (step cfg st c1)) in *.
  set (st2 := store_after st1 (step cfg st1 c2)) in *.
  set (st3 := store_after st2 (step cfg st2 c3)) in *.
  set (st4 := store_after st3 (step cfg st3 c4)) in *.
  set (st5 := store_after st4 (step cfg st4 c5)) in *.
  destruct (no_reset_cons _ _ _ _ _ Hno A1) as [E1 Hno1]. fold st1 in Hno1.
  destruct (no_reset_cons _ _ _ _ _ Hno1 A2) as [E2 Hno2]. fold st2 in Hno2.
  destruct (no_reset_cons _ _ _ _ _ Hno2 A3) as [E3 Hno3]. fold st3 in Hno3.
  destruct (no_reset_cons _ _ _ _ _ Hno3 A4) as [E4 Hno4]. fold st4 in Hno4.
  destruct (no_reset_cons _ _ _ _ _ Hno4 A5) as [E5 _].
  destruct (step_same_session cfg sid st c1 A1 E1) as (D1 & L1 & F1 & S1).
  fold st1 in D1, L1, F1, S1.
  rewrite D0, Hscam in D1. rewrite L0 in L1. cbn in D1, L1.
  rewrite D1, L1, S0 in F1. cbn in F1. rewrite S0, F1 in S1. cbn in S1.
  destruct (step_same_session cfg sid st1 c2 A2 E2) as (D2 & L2 & F2 & S2).
  fold st2 in D2, L2, F2, S2.
  rewrite D1 in D2. rewrite L1 in L2. cbn in D2, L2.
  rewrite D2, L2, S1 in F2. cbn in F2. rewrite S1, F2 in S2. cbn in S2.
  destruct (step_same_session cfg sid st2 c3 A3 E3) as (D3 & L3 & F3 & S3).
  fold st3 in D3, L3, F3, S3.
  rewrite D2 in D3. rewrite L2 in L3. cbn in D3, L3.
  rewrite D3, L3, S2 in F3. cbn in F3. rewrite S2, F3 in S3. cbn in S3.
  destruct (step_same_session cfg sid st3 c4 A4 E4) as (D4 & L4 & F4 & S4).
  fold st4 in D4, L4, F4, S4.
  rewrite D3 in D4. rewrite L3 in L4. cbn in D4, L4.
  rewrite D4, L4, S3 in F4. cbn in F4. rewrite S3, F4 in S4. cbn in S4.
  destruct (step_same_session cfg sid st4 c5 A5 E5) as (D5 & L5 & F5 & S5).
  fold st5 in D5, L5, F5, S5.
  rewrite D4 in D5. rewrite L4 in L5. cbn in D5, L5.
  rewrite D5, L5, S4 in F5. cbn in F5.
  by rewrite F1, F2, F3, F4, F5, L1, L2, L3, L4, L5.
Qed.

(** C2: a processed message schedules the callback of its session exactly
    when, with the history already extended by the message, the session is
    flagged, its history has at least CALLBACK_MESSAGE_THRESHOLD entries
    and [callback_sent] was not set when the message arrived; and five
    processed messages to a new session, flagged from the first one on,
    schedule the callback once, on the fifth, where the history reaches
    length 10. *)
Theorem report_trigger_condition (cfg : Config) :
  (forall env st body key o,
      chat_handler cfg env st body key = Returned o ->
      exists s',
        out_store o !! sessionId body = Some s'
        /\ out_tasks o
           = if scam_detected s'
                && (CALLBACK_MESSAGE_THRESHOLD <=? length (history s'))
                && negb (callback_sent
                           (resolve_session env st (sessionId body)))
             then [SendFinalCallback (sessionId body)]
             else [])
  /\ (forall sid st c1 c2 c3 c4 c5,
         st !! sid = None ->
         Forall (addressed cfg sid) [c1; c2; c3; c4; c5] ->
         detect_scam (call_text c1) = true ->
         no_reset cfg sid st [c1; c2; c3; c4; c5] = true ->
         map (fires sid) (fst (run cfg st [c1; c2; c3; c4; c5]))
         = [false; false; false; false; true]
         /\ history_lengths cfg sid st [c1; c2; c3; c4; c5]
            = [2; 4; 6; 8; 10]).
Proof.
  split.
  - intros env st body key o. unfold chat_handler.
    destruct (negb _); [done|]. intros [= <-].
    rewrite handle_message_eq. cbn [out_store out_tasks].
    exists (session_after cfg env st body).
    split; [apply lookup_insert_eq|]. by rewrite callback_fires_after.
  - apply five_flagged_calls.
Qed.

(** Five flagged messages to a new session: only the fifth call schedules
    the callback, and the tenth history entry is written by it. *)
Lemma report_trigger_condition_witness :
  map (fires "s1") (fst (run Sample.cfg ∅ Sample.five_calls))
  = [false; false; false; false; true]
  /\ history_lengths Sample.cfg "s1" ∅ Sample.five_calls = [2; 4; 6; 8; 10].
Proof.
  apply (proj2 (report_trigger_condition Sample.cfg) "s1" ∅
           (Sample.call_at 0 "s1" Sample.scam_text)
           (Sample.call_at 1 "s1" Sample.scam_text)
           (Sample.call_at 2 "s1" Sample.scam_text)
           (Sample.call_at 3 "s1" Sample.scam_text)
           (Sample.call_at 4 "s1" Sample.scam_text)).
  - reflexivity.
  - repeat constructor.
  - vm_compute. reflexivity.
  - vm_compute. reflexivity.
Defined.

(** ** Histories grow in pairs *)

Lemma reachable_history_even (cfg : Config) (st : gmap string Session) :
  reachable cfg st ->
  forall sid s, st !! sid = Some s -> Nat.Even (length (history s)).
Proof.
  revert st. apply (reachable_sessions cfg (fun s => Nat.Even (length (history s)))).
  intros env st body Hst. cbn [session_after history].
  rewrite history_after_length.
  assert (Nat.Even (length (history (resolve_session env st (sessionId body)))))
    as [k Hk].
  { apply (resolve_preserves (fun s => Nat.Even (length (history s)))).
    - by exists 0.
    - by intros [].
    - intros s. apply Hst. }
  exists (k + 1). lia.
Qed.

(** C3: a processed message appends exactly two entries to the history of
    the session it is processed on, the scammer's message and then the
    reply returned to the caller, whether or not the reply generator was
    called; so the history is two entries longer than the one of the
    resolved session (the stored one unless the session was absent or
    expired), and in every reachable store every history has even
    length. *)
Theorem pair_invariant (cfg : Config) :
  (forall env st body key o,
      chat_handler cfg env st body key = Returned o ->
      exists s',
        out_store o !! sessionId body = Some s'
        /\ history s'
           = history (resolve_session env st (sessionId body))
             ++ [mkTurn "scammer" (msg_text (message body))
                   (Stated (msg_timestamp (message body)));
                 mkTurn "agent" (resp_reply (out_response o))
                   (IsoZ (now env))]
        /\ length (history s')
           = length (history (resolve_session env st (sessionId body))) + 2
        /\ (expired env st (sessionId body) = false ->
            length (history s') = history_length (sessionId body) st + 2))
  /\ (forall st sid s,
         reachable cfg st -> st !! sid = Some s ->
         Nat.Even (length (history s))).
Proof.
  split.
  - intros env st body key o. unfold chat_handler.
    destruct (negb _); [done|]. intros [= <-].
    rewrite handle_message_eq. cbn [out_store out_response resp_reply].
    exists (session_after cfg env st body).
    split; [apply lookup_insert_eq|]. cbn [session_after history].
    split; [reflexivity|]. split; [apply history_after_length|].
    intros Hexp. rewrite history_after_length.
    destruct (resolve_not_expired _ _ _ Hexp) as (_ & _ & -> & _).
    unfold stored_history, history_length.
    by destruct (st !! sessionId body).
  - intros st sid s Hreach Hs.
    exact (reachable_history_even cfg st Hreach sid s Hs).
Qed.

(** After six messages the history of the session has twelve entries. *)
Lemma pair_invariant_witness :
  Nat.Even (history_length "s1" (snd (run Sample.cfg ∅ Sample.six_calls))).
Proof.
  pose proof (proj2 (pair_invariant Sample.cfg)
                (snd (run Sample.cfg ∅ Sample.six_calls)) "s1") as H.
  unfold history_length.
  destruct (snd (run Sample.cfg ∅ Sample.six_calls) !! "s1") as [s|] eqn:Hs.
  - apply (H s); [|reflexivity]. apply reachable_run, reachable_start.
  - by exists 0.
Defined.

(** ** The detection flag is sticky *)

Lemma step_detected_other (cfg : Config) (sid : string)
  (st : gmap string Session) (c : Call) :
  ~ addressed cfg sid c ->
  detected sid (store_after st (step cfg st c)) = detected sid st.
Proof.
  intros Hna. unfold detected. rewrite store_after_other; [done|].
  destruct (accepted cfg c) eqn:Hacc; [right|by left].
  intros Hsid. apply Hna. by split.
Qed.

Lemma addressed_dec (cfg : Config) (sid : string) (c : Call) :
  addressed cfg sid c \/ ~ addressed cfg sid c.
Proof.
  unfold addressed. destruct (accepted cfg c); [|right; by intros [? _]].
  destruct (decide (call_sid c = sid)); [by left|right; by intros [_ ?]].
Qed.

Lemma run_detected (cfg : Config) (sid : string) (calls : list Call) :
  forall st, no_reset cfg sid st calls = true -> detected sid st = true ->
  detected sid (snd (run cfg st calls)) = true.
Proof.
  induction calls as [|c calls IH]; intros st Hno Hdet; [done|].
  rewrite run_cons. cbn [snd]. apply IH.
  - cbn [no_reset] in Hno. by apply andb_true_iff in Hno as [_ ?].
  - destruct (addressed_dec cfg sid c) as [Ha|Hna].
    + destruct (no_reset_cons _ _ _ _ _ Hno Ha) as [Hexp _].
      destruct (step_same_session cfg sid st c Ha Hexp) as (-> & _).
      by rewrite Hdet.
    + by rewrite step_detected_other.
Qed.

(** C4: once [scam_detected] is set for a session, it stays set over any
    sequence of calls that does not reset that session, whatever the
    classifier returns for the messages; and a call after which the flag
    is no longer set is a processed call to that session which found it
    expired and whose message is not classified as a scam. *)
Theorem sticky_detection (cfg : Config) (sid : string)
  (st : gmap string Session) :
  detected sid st = true ->
  (forall calls, no_reset cfg sid st calls = true ->
                 detected sid (snd (run cfg st calls)) = true)
  /\ (forall c, detected sid (store_after st (step cfg st c)) = false ->
                addressed cfg sid c
                /\ expired (call_env c) st sid = true
                /\ detect_scam (call_text c) = false).
Proof.
  intros Hdet. split.
  - intros calls Hno. by apply run_detected.
  - intros c Hafter.
    destruct (addressed_dec cfg sid c) as [Ha|Hna].
    + split; [done|].
      destruct (expired (call_env c) st sid) eqn:Hexp.
      * split; [done|]. destruct Ha as [Hacc <-].
        unfold detected in Hafter. rewrite (store_after_same _ _ _ Hacc) in Hafter.
        cbn [session_after scam_detected] in Hafter. unfold flag_after in Hafter.
        apply orb_false_iff in Hafter as [_ ?]. done.
      * destruct (step_same_session cfg sid st c Ha Hexp) as (Hd & _).
        rewrite Hd, Hdet in Hafter. done.
    + rewrite step_detected_other, Hdet in Hafter; done.
Qed.

(** A flagged session keeps its flag over a greeting sent ten seconds
    after its last activity. *)
Lemma sticky_detection_witness :
  detected "s1"
    (snd (run Sample.cfg Sample.old_store [Sample.call_at 10 "s1" "hello"]))
  = true.
Proof.
  apply (proj1 (sticky_detection Sample.cfg "s1" Sample.old_store eq_refl)).
  vm_compute. reflexivity.
Defined.

(** ** Timeout reset *)

Lemma handle_message_expired (cfg : Config) (env : Env)
  (st : gmap string Session) (body : RequestBody) :
  expired env st (sessionId body) = true ->
  handle_message cfg env st body
  = handle_message cfg env (delete (sessionId body) st) body.
Proof.
  intros Hexp. rewrite !handle_message_eq.
  unfold session_after, callback_fires, history_after, reply_text,
    should_activate_agent, flag_after.
  rewrite (resolve_is_expired _ _ _ Hexp).
  rewrite (resolve_absent env (delete (sessionId body) st) (sessionId body))
    by apply lookup_delete_eq.
  by rewrite insert_delete_eq.
Qed.

(** C6: for a stored session last active at [T], a message arriving more
    than SESSION_TIMEOUT_SECONDS after [T] is processed on a session in
    its initial state (empty history, five empty intelligence lists, both
    flags unset) with [last_active] set to the arrival time, and the whole
    call behaves as if the session had never existed; a message arriving
    within the timeout is processed on the stored session with only
    [last_active] changed to the arrival time. *)
Theorem timeout_reset (cfg : Config) (env : Env) (st : gmap string Session)
  (sid : string) (s : Session) :
  st !! sid = Some s ->
  ((now env - last_active s
    > SESSION_TIMEOUT_SECONDS * microseconds_per_second)%Z ->
   resolve_session env st sid
   = mkSession [] (mkIntelligence [] [] [] [] []) (now env) false false
   /\ forall body, sessionId body = sid ->
        handle_message cfg env st body
        = handle_message cfg env (delete sid st) body)
  /\ ((now env - last_active s
       <= SESSION_TIMEOUT_SECONDS * microseconds_per_second)%Z ->
      resolve_session env st sid
      = mkSession (history s) (intelligence s) (now env) (callback_sent s)
          (scam_detected s)).
Proof.
  intros Hs. split.
  - intros Ht%timed_out_spec. split.
    + by apply (resolve_expired env st sid s).
    + intros body <-. apply handle_message_expired.
      unfold expired. by rewrite Hs.
  - intros Ht%timed_out_false.
    by rewrite (resolve_live env st sid s Hs Ht).
Qed.

(** A session last active at second 0: a message at second 1801 finds it
    reset, a message at second 1800 finds it as it was stored. *)
Lemma timeout_reset_witness :
  resolve_session (Sample.env_at 1801) Sample.old_store "s1"
  = mkSession [] (mkIntelligence [] [] [] [] []) 1801000000 false false
  /\ resolve_session (Sample.env_at 1800) Sample.old_store "s1"
     = mkSession (history Sample.old_session)
         (intelligence Sample.old_session) 1800000000 false true.
Proof.
  split.
  - apply (timeout_reset Sample.cfg (Sample.env_at 1801) Sample.old_store
             "s1" Sample.old_session eq_refl).
    reflexivity.
  - apply (timeout_reset Sample.cfg (Sample.env_at 1800) Sample.old_store
             "s1" Sample.old_session eq_refl).
    vm_compute. discriminate.
Defined.

(** ** Engagement and the response *)

Lemma chat_handler_returned (cfg : Config) (env : Env)
  (st : gmap string Session) (body : RequestBody) (key : string)
  (o : Outcome) :
  chat_handler cfg env st body key = Returned o ->
  String.eqb key (HONEYPOT_API_KEY cfg) = true
  /\ o = handle_message cfg env st body.
Proof.
  unfold chat_handler. destruct (String.eqb key _); cbn [negb]; [|done].
  by intros [= <-].
Qed.

Lemma detect_scam_hello : detect_scam "hello" = false.
Proof. vm_compute. reflexivity. Qed.

(** C7: a processed message calls the reply generator exactly when, after
    the classification of the message, the session is flagged or its
    history (not yet extended by the message) is not empty; the generator
    is then called once, on that history and the message text, and its
    result is the reply; otherwise the reply is "Who is this?".  The
    message "hello" as the first one of a session gets that fixed reply,
    leaves the session unflagged with a history of two entries, and
    schedules no callback. *)
Theorem engagement_activation (cfg : Config) :
  (forall env st body key o,
      chat_handler cfg env st body key = Returned o ->
      exists s',
        out_store o !! sessionId body = Some s'
        /\ (out_agent_calls o <> []
            <-> scam_detected s' = true
                \/ 0 < length (history
                                 (resolve_session env st (sessionId body))))
        /\ (out_agent_calls o = [] ->
            resp_reply (out_response o) = "Who is this?")
        /\ (out_agent_calls o <> [] ->
            out_agent_calls o
            = [(history (resolve_session env st (sessionId body)),
                msg_text (message body))]
            /\ resp_reply (out_response o)
               = generate_agent_reply cfg env
                   (history (resolve_session env st (sessionId body)))
                   (msg_text (message body))))
  /\ (forall env st body,
         st !! sessionId body = None ->
         msg_text (message body) = "hello" ->
         exists o,
           chat_handler cfg env st body (HONEYPOT_API_KEY cfg) = Returned o
           /\ resp_scam_detected (out_response o) = false
           /\ detected (sessionId body) (out_store o) = false
           /\ resp_reply (out_response o) = "Who is this?"
           /\ history_length (sessionId body) (out_store o) = 2
           /\ out_agent_calls o = []
           /\ out_tasks o = []).
Proof.
  split.
  - intros env st body key o [_ ->]%chat_handler_returned.
    rewrite handle_message_eq.
    cbn [out_store out_response out_agent_calls resp_reply].
    exists (session_after cfg env st body).
    split; [apply lookup_insert_eq|].
    cbn [session_after scam_detected]. unfold reply_text.
    unfold should_activate_agent.
    destruct (flag_after env st body); cbn [orb].
    + split; [split; [by left|done]|]. split; done.
    + destruct (0 <? length _) eqn:Hlen.
      * apply Nat.ltb_lt in Hlen.
        split; [split; [by right|done]|]. split; done.
      * apply Nat.ltb_ge in Hlen.
        split; [split; [done|intros [?|?]; [done|lia]]|]. split; done.
  - intros env st body Habs Htext.
    exists (handle_message cfg env st body). split.
    { unfold chat_handler. by rewrite String.eqb_refl. }
    rewrite handle_message_eq.
    cbn [out_store out_response out_agent_calls out_tasks resp_reply
         resp_scam_detected].
    unfold detected, history_length. rewrite lookup_insert_eq.
    cbn [session_after scam_detected history].
    unfold callback_fires, reply_text, should_activate_agent.
    rewrite history_after_length. unfold flag_after.
    rewrite (resolve_absent _ _ _ Habs), Htext, detect_scam_hello.
    done.
Qed.

(** "hello" as the first message of session "s1". *)
Lemma engagement_activation_witness :
  exists o,
    chat_handler Sample.cfg (Sample.env_at 0) ∅ (Sample.body_of "s1" "hello")
      "YOUR_SECRET_API_KEY" = Returned o
    /\ resp_scam_detected (out_response o) = false
    /\ detected "s1" (out_store o) = false
    /\ resp_reply (out_response o) = "Who is this?"
    /\ history_length "s1" (out_store o) = 2
    /\ out_agent_calls o = []
    /\ out_tasks o = [].
Proof.
  apply (proj2 (engagement_activation Sample.cfg) (Sample.env_at 0) ∅
           (Sample.body_of "s1" "hello")); reflexivity.
Defined.

(** C10: the [scam_detected] field of the response is the flag of the
    session after the or-update, not the classification of the message;
    so a processed message that is not classified as a scam, sent to a
    session that a previous message flagged and that has not expired, is
    answered with [scam_detected] set; such a pair of messages exists. *)
Theorem response_reports_sticky_flag (cfg : Config) :
  (forall env st body key o,
      chat_handler cfg env st body key = Returned o ->
      exists s',
        out_store o !! sessionId body = Some s'
        /\ resp_scam_detected (out_response o) = scam_detected s'
        /\ scam_detected s'
           = scam_detected (resolve_session env st (sessionId body))
             || detect_scam (msg_text (message body)))
  /\ (forall sid st c1 c2,
         addressed cfg sid c1 -> addressed cfg sid c2 ->
         detect_scam (call_text c1) = true ->
         detect_scam (call_text c2) = false ->
         expired (call_env c2) (store_after st (step cfg st c1)) sid = false ->
         exists o1 o2,
           fst (run cfg st [c1; c2]) = [Returned o1; Returned o2]
           /\ resp_scam_detected (out_response o1) = true
           /\ resp_scam_detected (out_response o2) = true)
  /\ (exists c1 c2 o1 o2,
         detect_scam (call_text c1) = true
         /\ detect_scam (call_text c2) = false
         /\ fst (run cfg ∅ [c1; c2]) = [Returned o1; Returned o2]
         /\ resp_scam_detected (out_response o2) = true).
Proof.
  assert (forall sid st c1 c2,
             addressed cfg sid c1 -> addressed cfg sid c2 ->
             detect_scam (call_text c1) = true ->
             detect_scam (call_text c2) = false ->
             expired (call_env c2) (store_after st (step cfg st c1)) sid = false ->
             exists o1 o2,
               fst (run cfg st [c1; c2]) = [Returned o1; Returned o2]
               /\ resp_scam_detected (out_response o1) = true
               /\ resp_scam_detected (out_response o2) = true) as Hpair.
  { intros sid st c1 c2 [A1 S1] [A2 S2] D1 D2 Hexp.
    exists (handle_message cfg (call_env c1) st (call_body c1)).
    exists (handle_message cfg (call_env c2)
              (store_after st (step cfg st c1)) (call_body c2)).
    rewrite !run_cons. cbn [fst run].
    rewrite (step_accepted _ _ _ A1) at 1.
    rewrite (step_accepted _ _ _ A2).
    split; [done|]. rewrite !handle_message_eq.
    cbn [out_response resp_scam_detected]. unfold flag_after.
    fold (call_text c1) (call_text c2). rewrite D1, D2, orb_true_r, orb_false_r.
    split; [done|].
    fold (call_sid c2). rewrite S2.
    destruct (resolve_not_expired _ _ _ Hexp) as (_ & -> & _).
    unfold detected. rewrite <- S1, (store_after_same _ _ _ A1).
    cbn [session_after scam_detected]. unfold flag_after.
    fold (call_text c1). by rewrite D1, orb_true_r. }
  split; [|split; [exact Hpair|]].
  - intros env st body key o [_ ->]%chat_handler_returned.
    rewrite handle_message_eq. cbn [out_store out_response resp_scam_detected].
    exists (session_after cfg env st body).
    split; [apply lookup_insert_eq|]. done.
  - set (c1 := mkCall (Sample.env_at 0) (Sample.body_of "s1" Sample.scam_text)
                  (HONEYPOT_API_KEY cfg)).
    set (c2 := mkCall (Sample.env_at 1) (Sample.body_of "s1" "hello")
                  (HONEYPOT_API_KEY cfg)).
    assert (addressed cfg "s1" c1) as A1
        by (split; [apply String.eqb_refl|done]).
    assert (addressed cfg "s1" c2) as A2
        by (split; [apply String.eqb_refl|done]).
    assert (detect_scam (call_text c1) = true) as D1 by (vm_compute; reflexivity).
    assert (detect_scam (call_text c2) = false) as D2 by (vm_compute; reflexivity).
    destruct (Hpair "s1" ∅ c1 c2 A1 A2 D1 D2) as (o1 & o2 & Hrun & _ & H2).
    { unfold expired. destruct A1 as [Hacc1 _].
      change "s1" with (call_sid c1). rewrite (store_after_same _ _ _ Hacc1).
      cbn [session_after last_active]. reflexivity. }
    by exists c1, c2, o1, o2.
Qed.

(** The worked message followed one second later by "hello": the second
    response still reports a scam. *)
Lemma response_reports_sticky_flag_witness :
  exists o1 o2,
    fst (run Sample.cfg ∅
           [Sample.call_at 0 "s1" Sample.scam_text;
            Sample.call_at 1 "s1" "hello"])
    = [Returned o1; Returned o2]
    /\ resp_scam_detected (out_response o1) = true
    /\ resp_scam_detected (out_response o2) = true.
Proof.
  apply (proj1 (proj2 (response_reports_sticky_flag Sample.cfg)) "s1").
  - split; reflexivity.
  - split; reflexivity.
  - vm_compute. reflexivity.
  - vm_compute. reflexivity.
  - vm_compute. reflexivity.
Defined.

(** ** Extraction *)

Lemma reachable_intel_NoDup (cfg : Config) (st : gmap string Session) :
  reachable cfg st ->
  forall sid s, st !! sid = Some s -> intel_NoDup (intelligence s).
Proof.
  revert st. apply (reachable_sessions cfg (fun s => intel_NoDup (intelligence s))).
  intros env st body Hst. cbn [session_after intelligence].
  apply extract_NoDup.
  apply (resolve_preserves (fun s => intel_NoDup (intelligence s))).
  - apply empty_intelligence_NoDup.
  - by intros [].
  - intros s. apply Hst.
Qed.

(** C5: running the extraction update a second time with the same text
    changes nothing.  Each category list is extended by the values found
    and not yet held, each once, in the order of their first occurrence;
    so the list it had is kept as a prefix, a list without duplicates
    stays without duplicates, and no category list of a session of a
    reachable store holds a value twice. *)
Theorem idempotent_extraction (cfg : Config) :
  (forall i text,
      extract_and_update_intelligence
        (extract_and_update_intelligence i text) text
      = extract_and_update_intelligence i text)
  /\ (forall i text key,
         intel_get key (extract_and_update_intelligence i text)
         = intel_get key i
           ++ first_occurrences
                (newly_found (intel_get key i) (category_matches key text)))
  /\ (forall i text key,
         intel_get key i
         `prefix_of` intel_get key (extract_and_update_intelligence i text))
  /\ (forall i text key,
         NoDup (intel_get key i) ->
         NoDup (intel_get key (extract_and_update_intelligence i text)))
  /\ (forall st sid s key,
         reachable cfg st -> st !! sid = Some s ->
         NoDup (intel_get key (intelligence s))).
Proof.
  split; [apply extract_idempotent|].
  split; [intros; rewrite extract_get; apply append_new_first_seen|].
  split; [intros; rewrite extract_get; apply append_new_prefix|].
  split; [intros; rewrite extract_get; by apply append_new_NoDup|].
  intros st sid s key Hreach Hs.
  exact (reachable_intel_NoDup cfg st Hreach sid s Hs key).
Qed.

(** After six identical messages each value is still held once. *)
Lemma idempotent_extraction_witness :
  NoDup (match snd (run Sample.cfg ∅ Sample.six_calls) !! "s1" with
         | Some s => suspiciousKeywords (intelligence s)
         | None => []
         end).
Proof.
  destruct (snd (run Sample.cfg ∅ Sample.six_calls) !! "s1") as [s|] eqn:Hs.
  - apply (proj2 (proj2 (proj2 (proj2 (idempotent_extraction Sample.cfg))))
             (snd (run Sample.cfg ∅ Sample.six_calls)) "s1" s
             K_suspiciousKeywords).
    + apply reachable_run, reachable_start.
    + exact Hs.
  - apply NoDup_nil_2.
Defined.

(** C8: the worked message is classified as a scam, and extraction on an
    empty intelligence dictionary yields the payment identifier
    "john@upi", the link "http://bit.ly/x", no phone number, no account
    number, and the suspicious terms found in the order of KEYWORDS_SCAM,
    among them "kyc", "blocked", "pay" and "verify". *)
Theorem worked_example :
  let text :=
    "Your KYC is blocked, pay to upi id john@upi or verify at http://bit.ly/x"
  in
  detect_scam text = true
  /\ extract_and_update_intelligence empty_intelligence text
     = mkIntelligence [] ["john@upi"] ["http://bit.ly/x"] []
         ["blocked"; "verify"; "kyc"; "upi"; "pay"]
  /\ Forall (fun k => k ∈ suspiciousKeywords
                        (extract_and_update_intelligence empty_intelligence
                           text))
       ["kyc"; "blocked"; "pay"; "verify"]
  /\ suspiciousKeywords
       (extract_and_update_intelligence empty_intelligence text)
     = List.filter
         (fun k => Py.list_in k ["blocked"; "verify"; "kyc"; "upi"; "pay"])
         KEYWORDS_SCAM.
Proof.
  cbv zeta.
  assert (extract_and_update_intelligence empty_intelligence
            "Your KYC is blocked, pay to upi id john@upi or verify at http://bit.ly/x"
          = mkIntelligence [] ["john@upi"] ["http://bit.ly/x"] []
              ["blocked"; "verify"; "kyc"; "upi"; "pay"]) as ->
      by (vm_compute; reflexivity).
  split; [vm_compute; reflexivity|]. split; [reflexivity|].
  split; [|vm_compute; reflexivity].
  cbn [suspiciousKeywords]. repeat constructor.
  all: apply list_in_spec; vm_compute; reflexivity.
Qed.

(** C9: the phone-number pattern and the account-number pattern are
    applied independently, so a text with a bare ten-digit number starting
    with 9 puts that number both in the phone-number list and in the
    account-number list; with a "+91" prefix the phone-number list holds
    the prefixed number and the account-number list its ten digits. *)
Theorem overlapping_digit_capture :
  (exists text d,
      d ∈ phoneNumbers (extract_and_update_intelligence empty_intelligence text)
      /\ d ∈ bankAccounts (extract_and_update_intelligence empty_intelligence text))
  /\ extract_and_update_intelligence empty_intelligence "call 9876543210 now"
     = mkIntelligence ["9876543210"] [] [] ["9876543210"] []
  /\ extract_and_update_intelligence empty_intelligence "+91 9876543210"
     = mkIntelligence ["9876543210"] [] [] ["+91 9876543210"] [].
Proof.
  assert (extract_and_update_intelligence empty_intelligence
            "call 9876543210 now"
          = mkIntelligence ["9876543210"] [] [] ["9876543210"] []) as H
      by (vm_compute; reflexivity).
  split; [|split; [exact H|vm_compute; reflexivity]].
  exists "call 9876543210 now", "9876543210". rewrite H.
  cbn [phoneNumbers bankAccounts]. split; apply list_elem_of_here.
Qed.

(** * Further properties of the code *)

(** ** Strings *)

Lemma append_nil_r (s : string) : s +:+ "" = s.
Proof. induction s as [|c s IH]; [done|]. change (String c (s +:+ "") = String c s). by rewrite IH. Qed.

Lemma append_assoc (a b c : string) : (a +:+ b) +:+ c = a +:+ b +:+ c.
Proof.
  induction a as [|x a IH]; [done|].
  change (String x ((a +:+ b) +:+ c) = String x (a +:+ b +:+ c)).
  by rewrite IH.
Qed.

Lemma append_cons (x : ascii) (a b : string) :
  String x a +:+ b = String x (a +:+ b).
Proof. reflexivity. Qed.

Lemma length_append (a b : string) :
  String.length (a +:+ b) = String.length a + String.length b.
Proof.
  induction a as [|x a IH]; [done|]. rewrite append_cons.
  cbn [String.length]. by rewrite IH.
Qed.

Lemma substring_append (w e : string) :
  substring 0 (String.length (w +:+ e) - String.length e) (w +:+ e) = w.
Proof.
  rewrite length_append. replace (_ + _ - _) with (String.length w) by lia.
  induction w as [|x w IH].
  - cbn [String.length]. change ("" +:+ e) with e. by destruct e.
  - rewrite append_cons. cbn [String.length substring]. by rewrite IH.
Qed.

Lemma all_chars_append (p : ascii -> bool) (a b : string) :
  all_chars p (a +:+ b) = all_chars p a && all_chars p b.
Proof.
  induction a as [|x a IH]; [done|]. rewrite append_cons.
  cbn [all_chars]. by rewrite IH, andb_assoc.
Qed.

(** ** The matcher only returns words of the pattern *)

Lemma one_sound (p : ascii -> bool) (s : string) (k : Re.cont)
  (e : Re.position) :
  Re.one p s k = Some e ->
  exists a s', s = String a s' /\ p a = true /\ k (Some a) s' = Some e.
Proof.
  destruct s as [|a s']; [done|]. cbn [Re.one].
  destruct (p a) eqn:Hp; [|done]. intros H. by exists a, s'.
Qed.

Lemma within_below (n : nat) (hi : option nat) :
  Re.below n hi = true -> within (S n) hi.
Proof. destruct hi as [h|]; [|done]. cbn. intros ?%Nat.ltb_lt. lia. Qed.

Lemma rmatch_sound (r : Re.regex) :
  forall prev s k e,
    Re.rmatch r prev s k = Some e ->
    exists w s' prev', s = w +:+ s' /\ lang r w /\ k prev' s' = Some e.
Proof.
  induction r as [|c|p|r1 IH1 r2 IH2|r1 IH1 r2 IH2|lo hi r1 IH1|];
    intros prev s k e H; cbn [Re.rmatch] in H.
  - exists "", s, prev. done.
  - apply one_sound in H as (a & s' & -> & Ha & Hk).
    apply Ascii.eqb_eq in Ha. subst a. exists (String c ""), s', (Some c). done.
  - apply one_sound in H as (a & s' & -> & Ha & Hk).
    exists (String a ""), s', (Some a). split; [done|]. split; [|done].
    by exists a.
  - apply IH1 in H as (w1 & s1 & prev1 & -> & L1 & H).
    apply IH2 in H as (w2 & s2 & prev2 & -> & L2 & H).
    exists (w1 +:+ w2), s2, prev2. split; [by rewrite append_assoc|].
    split; [|done]. by exists w1, w2.
  - destruct (Re.rmatch r1 prev s k) as [e1|] eqn:H1.
    + injection H as ->. apply IH1 in H1 as (w & s' & prev' & -> & L & Hk).
      exists w, s', prev'. split; [done|]. split; [by left|done].
    + apply IH2 in H as (w & s' & prev' & -> & L & Hk).
      exists w, s', prev'. split; [done|]. split; [by right|done].
  - (* the loop of the repetition concatenates words of its body *)
    match type of H with
    | ?loop (String.length s) 0 prev s k = Some e =>
        assert (forall fuel n prev s,
                   within n hi ->
                   loop fuel n prev s k = Some e ->
                   exists ws s' prev',
                     s = concat_str ws +:+ s' /\ Forall (lang r1) ws
                     /\ lo <= n + length ws /\ within (n + length ws) hi
                     /\ k prev' s' = Some e) as Hloop
    end.
    { clear H prev s.
      assert (forall n prev s,
                 within n hi ->
                 (if lo <=? n then k prev s else None) = Some e ->
                 exists ws s' prev',
                   s = concat_str ws +:+ s' /\ Forall (lang r1) ws
                   /\ lo <= n + length ws /\ within (n + length ws) hi
                   /\ k prev' s' = Some e) as Hstop.
      { intros n prev s Hn H. destruct (lo <=? n) eqn:Hlo; [|done].
        apply Nat.leb_le in Hlo. exists [], s, prev.
        cbn [length]. rewrite Nat.add_0_r. done. }
      induction fuel as [|fuel IH]; intros n prev s Hn H.
      - apply (Hstop n prev s Hn). exact H.
      - cbv beta iota zeta fix in H. fold Re.rmatch in H.
        destruct (Re.below n hi) eqn:Hb; [|apply (Hstop n prev s Hn); exact H].
        match type of H with
        | match ?m with _ => _ end = _ => destruct m as [e1|] eqn:H1
        end; [|apply (Hstop n prev s Hn); exact H].
        injection H as ->.
        apply IH1 in H1 as (w & s1 & prev1 & -> & Lw & H1).
        destruct (String.length s1 <? _); [|done].
        apply IH in H1 as (ws & s' & prev' & -> & Hws & Hlo & Hhi & Hk);
          [|by apply within_below].
        exists (w :: ws), s', prev'. cbn [concat_str fold_right length].
        fold (concat_str ws). rewrite append_assoc.
        replace (n + S (length ws)) with (S n + length ws) by lia.
        split; [done|]. split; [by constructor|]. done. }
    apply Hloop in H as (ws & s' & prev' & -> & Hws & Hlo & Hhi & Hk);
      [|by destruct hi; cbn; lia].
    exists (concat_str ws), s', prev'. split; [done|]. split; [|done].
    exists ws. done.
  - destruct (xorb _ _); [|done]. exists "", s, prev. done.
Qed.

Lemma search_sound (r : Re.regex) (s : string) :
  forall must_advance prev s0 prev' e,
    Re.search r must_advance prev s = Some (s0, (prev', e)) ->
    exists pre w, s = pre +:+ s0 /\ s0 = w +:+ e /\ lang r w.
Proof.
  assert (forall must_advance prev s s0 prev' e e0,
             Re.rmatch r prev s
               (fun prev' s' =>
                  if must_advance && (String.length s' =? String.length s)
                  then None else Some (prev', s')) = Some e0 ->
             Some (s, e0) = Some (s0, (prev', e)) ->
             exists pre w, s = pre +:+ s0 /\ s0 = w +:+ e /\ lang r w) as Hhit.
  { intros ma prev s1 s0 prev' e e0 H Heq.
    apply rmatch_sound in H as (w & s' & prev1 & -> & Lw & Hk).
    destruct (ma && _); [done|]. injection Hk as <-. injection Heq as <- <- <-.
    by exists "", w. }
  induction s as [|a s IH]; intros ma prev s0 prev' e H; cbn [Re.search] in H.
  - destruct (Re.rmatch r prev "" _) as [e0|] eqn:Hm; [|done].
    by eapply Hhit.
  - destruct (Re.rmatch r prev (String a s) _) as [e0|] eqn:Hm.
    + by eapply Hhit.
    + apply IH in H as (pre & w & -> & -> & Lw).
      by exists (String a pre), w.
Qed.

Lemma occurs_in_suffix (m a s : string) :
  occurs_in m s -> occurs_in m (a +:+ s).
Proof.
  intros (x & y & ->). exists (a +:+ x), y. by rewrite append_assoc.
Qed.

Lemma findall_from_sound (r : Re.regex) (fuel : nat) :
  forall must_advance prev s m,
    m ∈ Re.findall_from fuel r must_advance prev s ->
    lang r m /\ occurs_in m s.
Proof.
  induction fuel as [|fuel IH]; intros ma prev s m; cbn [Re.findall_from].
  - by intros ?%elem_of_nil.
  - destruct (Re.search r ma prev s) as [[s0 [prev' e]]|] eqn:Hs;
      [|by intros ?%elem_of_nil].
    apply search_sound in Hs as (pre & w & -> & -> & Lw).
    rewrite substring_append.
    intros [->|Hin]%elem_of_cons.
    + split; [done|]. by exists pre, e.
    + apply IH in Hin as [Lm Hocc]. split; [done|].
      rewrite <- append_assoc. by apply occurs_in_suffix.
Qed.

(** Every match reported by [findall] is a word of the pattern and occurs
    in the text. *)
Lemma findall_sound (r : Re.regex) (s m : string) :
  m ∈ Re.findall r s -> lang r m /\ occurs_in m s.
Proof. apply findall_from_sound. Qed.

(** [search_bool] tells whether [findall] reports anything. *)
Lemma search_bool_findall (r : Re.regex) (s : string) :
  Re.search_bool r s = true <-> Re.findall r s <> [].
Proof.
  unfold Re.search_bool, Re.findall.
  replace (2 * String.length s + 2) with (S (2 * String.length s + 1)) by lia.
  cbn [Re.findall_from].
  destruct (Re.search r false None s) as [[s0 [prev' e]]|]; split; done.
Qed.

(** ** Words of the patterns of REGEX_PATTERNS *)

Lemma lang_rep_cls (lo : nat) (hi : option nat) (p : ascii -> bool)
  (w : string) :
  lang (Re.Rep lo hi (Re.Cls p)) w ->
  all_chars p w = true /\ lo <= String.length w /\ within (String.length w) hi.
Proof.
  intros (ws & -> & Hlo & Hhi & Hws).
  assert (all_chars p (concat_str ws) = true
          /\ String.length (concat_str ws) = length ws) as [Hall Hlen].
  { clear Hlo Hhi. induction Hws as [|w ws (a & Ha & ->) _ [IH1 IH2]]; [done|].
    cbn [concat_str fold_right length]. fold (concat_str ws).
    rewrite append_cons. cbn [all_chars String.length].
    change ("" +:+ concat_str ws) with (concat_str ws).
    by rewrite Ha, IH1, IH2. }
  by rewrite Hlen.
Qed.

Lemma lang_lit (s w : string) : lang (Re.lit s) w -> w = s.
Proof.
  revert w. induction s as [|c s IH]; intros w; [done|].
  destruct s as [|c' s]; [done|].
  intros (w1 & w2 & -> & -> & H2). apply IH in H2. by subst w2.
Qed.

Lemma lang_opt (r : Re.regex) (w : string) :
  lang (Re.opt r) w -> w = "" \/ lang r w.
Proof.
  intros (ws & -> & _ & Hhi & Hws). cbn in Hhi.
  destruct Hws as [|w ws Hw Hws]; [by left|].
  destruct Hws; [|cbn in Hhi; lia].
  right. cbn [concat_str fold_right]. by rewrite append_nil_r.
Qed.

(** A repetition of non-empty words over a class of characters. *)
Lemma lang_rep_over (lo : nat) (hi : option nat) (r : Re.regex)
  (p : ascii -> bool) (w : string) :
  (forall v, lang r v -> all_chars p v = true /\ v <> "") ->
  lang (Re.Rep lo hi r) w ->
  all_chars p w = true /\ (1 <= lo -> w <> "").
Proof.
  intros Hr (ws & -> & Hlo & _ & Hws). split.
  - clear Hlo. induction Hws as [|v ws Hv _ IH]; [done|].
    cbn [concat_str fold_right]. fold (concat_str ws).
    rewrite all_chars_append, IH. by destruct (Hr v Hv) as [-> _].
  - intros H1. destruct Hws as [|v ws Hv _]; [cbn in Hlo; lia|].
    destruct (Hr v Hv) as [_ Hne]. cbn [concat_str fold_right].
    destruct v; [done|]. by rewrite append_cons.
Qed.

Lemma all_chars_impl (p q : ascii -> bool) (s : string) :
  (forall c, p c = true -> q c = true) ->
  all_chars p s = true -> all_chars q s = true.
Proof.
  intros Hpq. induction s as [|c s IH]; [done|]. cbn [all_chars].
  intros [Hc Hs]%andb_true_iff. by rewrite (Hpq c Hc), IH.
Qed.

Lemma host_char_not_space (c : ascii) :
  host_char c = true -> not_space c = true.
Proof.
  destruct c as [[] [] [] [] [] [] [] []]; vm_compute; congruence.
Qed.

Lemma hex_char_not_space (c : ascii) :
  hex_char c = true -> not_space c = true.
Proof.
  destruct c as [[] [] [] [] [] [] [] []]; vm_compute; congruence.
Qed.

Lemma lang_bankAccounts (m : string) :
  lang pat_bankAccounts m -> account_shape m.
Proof.
  intros (w1 & w2 & -> & -> & w3 & w4 & -> & H & ->).
  apply lang_rep_cls in H as (Hall & Hlo & Hhi). cbn in Hhi.
  change ("" +:+ w3 +:+ "") with (w3 +:+ ""). rewrite append_nil_r.
  done.
Qed.

Lemma lang_phoneNumbers (m : string) :
  lang pat_phoneNumbers m -> phone_shape m.
Proof.
  intros (pre & w2 & -> & Hpre & w3 & w4 & -> & (c & Hc & ->)
          & d & w5 & -> & Hd & ->).
  apply lang_rep_cls in Hd as (Hall & Hlo & Hhi). cbn in Hhi.
  rewrite append_nil_r. exists pre, c, d.
  split; [done|]. split; [|split; [done|split; [done|lia]]].
  apply lang_opt in Hpre as [-> |(w6 & w7 & -> & H91 & Hsep)]; [by left|].
  apply lang_lit in H91 as ->.
  apply lang_opt in Hsep as [-> |(x & Hx & ->)]; [by right; left|].
  right; right. by exists x.
Qed.

Lemma lang_upiIds (m : string) : lang pat_upiIds m -> upi_shape m.
Proof.
  intros (l & w2 & -> & Hl & w3 & d & -> & -> & Hd).
  apply lang_rep_cls in Hl as (Hall1 & Hlo1 & Hhi1).
  apply lang_rep_cls in Hd as (Hall2 & Hlo2 & Hhi2).
  cbn in Hhi1, Hhi2. by exists l, d.
Qed.

Lemma lang_phishingLinks (m : string) :
  lang pat_phishingLinks m -> link_shape m.
Proof.
  intros (w1 & w2 & -> & ->%lang_lit & w3 & w4 & -> & Hs & w5 & w6 & ->
          & ->%lang_lit & host & path & -> & Hhost & Hpath).
  apply (lang_rep_over _ _ _ not_space) in Hhost as [Hh1 Hh2].
  2:{ intros v [(a & Ha & ->)|(v1 & v2 & -> & -> & Hhex)].
      - cbn [all_chars]. by rewrite (host_char_not_space a Ha).
      - apply lang_rep_cls in Hhex as [Hall _]. split; [|done].
        rewrite append_cons. cbn [all_chars].
        change ("" +:+ v2) with v2.
        by rewrite (all_chars_impl _ _ _ hex_char_not_space Hall). }
  apply lang_rep_cls in Hpath as [Hp _].
  assert (host +:+ path <> "") as Hne.
  { specialize (Hh2 (le_n 1)). destruct host; [done|]. by rewrite append_cons. }
  assert (all_chars not_space (host +:+ path) = true) as Hall
      by by rewrite all_chars_append, Hh1, Hp.
  exists (host +:+ path). split; [|split; [done|]].
  - apply lang_opt in Hs as [-> | ->]; [by left|by right].
  - apply lang_opt in Hs as [-> | ->];
      rewrite !all_chars_append; by rewrite Hh1, Hp.
Qed.

(** ** What the extractor records *)

Lemma prefix_occurs (k s : string) :
  String.prefix k s = true -> exists b, s = k +:+ b.
Proof.
  revert s. induction k as [|c k IH]; intros s; [by exists s|].
  destruct s as [|a s]; [done|]. cbn [String.prefix].
  destruct (ascii_dec c a) as [->|]; [|done].
  intros (b & ->)%IH. by exists b.
Qed.

Lemma str_in_occurs (k s : string) : Py.str_in k s = true -> occurs_in k s.
Proof.
  induction s as [|a s IH]; cbn [Py.str_in].
  - rewrite orb_false_r. intros (b & ->)%prefix_occurs. by exists "", b.
  - intros [(b & ->)%prefix_occurs|H]%orb_true_iff; [by exists "", b|].
    apply IH in H as (x & y & ->). by exists (String a x), y.
Qed.

Lemma found_keywords_elem (text k : string) :
  k ∈ found_keywords text
  <-> k ∈ KEYWORDS_SCAM /\ Py.str_in k (Py.lower text) = true.
Proof.
  unfold found_keywords. rewrite !list_elem_of_In.
  exact (filter_In (fun k => Py.str_in k (Py.lower text)) k KEYWORDS_SCAM).
Qed.

Lemma category_matches_sound (key : IntelKey) (text m : string) :
  m ∈ category_matches key text ->
  category_shape key m /\ occurs_in m (category_subject key text).
Proof.
  destruct key; cbn [category_matches category_shape category_subject].
  - intros [L Ho]%findall_sound. split; [by apply lang_bankAccounts|done].
  - intros [L Ho]%findall_sound. split; [by apply lang_upiIds|done].
  - intros [L Ho]%findall_sound. split; [by apply lang_phishingLinks|done].
  - intros [L Ho]%findall_sound. split; [by apply lang_phoneNumbers|done].
  - intros [Hk Hin]%found_keywords_elem. split; [done|by apply str_in_occurs].
Qed.

Lemma extract_elem (key : IntelKey) (i : Intelligence) (text x : string) :
  x ∈ intel_get key (extract_and_update_intelligence i text)
  <-> x ∈ intel_get key i \/ x ∈ category_matches key text.
Proof. rewrite extract_get. apply append_new_elem. Qed.

(** In a reachable store every recorded value has the shape of its
    category. *)
Lemma reachable_shaped (cfg : Config) (st : gmap string Session) :
  reachable cfg st ->
  forall sid s, st !! sid = Some s ->
  forall key m, m ∈ intel_get key (intelligence s) -> category_shape key m.
Proof.
  revert st.
  apply (reachable_sessions cfg
           (fun s => forall key m, m ∈ intel_get key (intelligence s) ->
                                   category_shape key m)).
  intros env st body Hst key m. cbn [session_after intelligence].
  rewrite extract_elem. intros [Hold|Hnew].
  - revert key m Hold.
    apply (resolve_preserves
             (fun s => forall key m, m ∈ intel_get key (intelligence s) ->
                                     category_shape key m)).
    + intros [] m Hm; cbn in Hm; by apply elem_of_nil in Hm.
    + by intros [].
    + intros s. apply Hst.
  - by apply category_matches_sound in Hnew as [? _].
Qed.

Lemma existsb_filter_nonempty {A : Type} (p : A -> bool) (l : list A) :
  existsb p l = true <-> List.filter p l <> [].
Proof.
  induction l as [|x l IH]; cbn [existsb List.filter]; [done|].
  destruct (p x); cbn [orb]; [done|exact IH].
Qed.

(** X1: the extractor never invents a value.  Whatever a category list
    holds after an update was either in the list before, or occurs
    literally in the message (in the lower-cased message for the
    suspicious keywords) and has the shape of its category. *)
Theorem extraction_records_substrings (key : IntelKey) (i : Intelligence)
  (text x : string) :
  x ∈ intel_get key (extract_and_update_intelligence i text) ->
  x ∈ intel_get key i
  \/ (category_shape key x /\ occurs_in x (category_subject key text)).
Proof.
  intros [Hold|Hnew]%extract_elem; [by left|right].
  by apply category_matches_sound.
Qed.

Lemma extraction_records_substrings_witness :
  "john@upi" ∈ intel_get K_upiIds empty_intelligence
  \/ (category_shape K_upiIds "john@upi"
      /\ occurs_in "john@upi" (category_subject K_upiIds Sample.scam_text)).
Proof.
  apply (extraction_records_substrings K_upiIds empty_intelligence
           Sample.scam_text "john@upi").
  apply list_in_spec. vm_compute. reflexivity.
Defined.

(** X2: every account number recorded in a session of a reachable store
    consists of nine to eighteen decimal digits. *)
Theorem recorded_account_numbers (cfg : Config) (st : gmap string Session)
  (sid : string) (s : Session) (m : string) :
  reachable cfg st -> st !! sid = Some s ->
  m ∈ bankAccounts (intelligence s) ->
  all_chars Py.is_digit m = true
  /\ 9 <= String.length m /\ String.length m <= 18.
Proof.
  intros Hreach Hs Hm.
  exact (reachable_shaped cfg st Hreach sid s Hs K_bankAccounts m Hm).
Qed.

Lemma recorded_account_numbers_witness :
  all_chars Py.is_digit "123456789012" = true
  /\ 9 <= String.length "123456789012"
  /\ String.length "123456789012" <= 18.
Proof.
  apply (recorded_account_numbers Sample.cfg Sample.rich_store "s2"
           (Sample.session_of Sample.rich_store "s2")).
  - apply reachable_run, reachable_start.
  - vm_compute. reflexivity.
  - apply list_in_spec. vm_compute. reflexivity.
Defined.

(** X3: every phone number recorded in a session of a reachable store is
    ten decimal digits whose first is 6, 7, 8 or 9, preceded by nothing,
    by "+91", or by "+91" and one dash or whitespace character. *)
Theorem recorded_phone_numbers (cfg : Config) (st : gmap string Session)
  (sid : string) (s : Session) (m : string) :
  reachable cfg st -> st !! sid = Some s ->
  m ∈ phoneNumbers (intelligence s) ->
  phone_shape m.
Proof.
  intros Hreach Hs Hm.
  exact (reachable_shaped cfg st Hreach sid s Hs K_phoneNumbers m Hm).
Qed.

Lemma recorded_phone_numbers_witness : phone_shape "+91-9876543210".
Proof.
  apply (recorded_phone_numbers Sample.cfg Sample.rich_store "s2"
           (Sample.session_of Sample.rich_store "s2")).
  - apply reachable_run, reachable_start.
  - vm_compute. reflexivity.
  - apply list_in_spec. vm_compute. reflexivity.
Defined.

(** X4: every payment identifier recorded in a session of a reachable
    store has exactly the form local "@" domain, with 2 to 49 characters
    from [a-zA-Z0-9.\-_] before the "@" and 2 to 49 characters from
    [a-zA-Z._] after it. *)
Theorem recorded_upi_ids (cfg : Config) (st : gmap string Session)
  (sid : string) (s : Session) (m : string) :
  reachable cfg st -> st !! sid = Some s ->
  m ∈ upiIds (intelligence s) ->
  upi_shape m.
Proof.
  intros Hreach Hs Hm.
  exact (reachable_shaped cfg st Hreach sid s Hs K_upiIds m Hm).
Qed.

Lemma recorded_upi_ids_witness : upi_shape "john@upi".
Proof.
  apply (recorded_upi_ids Sample.cfg Sample.rich_store "s2"
           (Sample.session_of Sample.rich_store "s2")).
  - apply reachable_run, reachable_start.
  - vm_compute. reflexivity.
  - apply list_in_spec. vm_compute. reflexivity.
Defined.

(** X5: every link recorded in a session of a reachable store starts with
    "http://" or "https://", continues with at least one character, and
    contains no whitespace. *)
Theorem recorded_links (cfg : Config) (st : gmap string Session)
  (sid : string) (s : Session) (m : string) :
  reachable cfg st -> st !! sid = Some s ->
  m ∈ phishingLinks (intelligence s) ->
  link_shape m.
Proof.
  intros Hreach Hs Hm.
  exact (reachable_shaped cfg st Hreach sid s Hs K_phishingLinks m Hm).
Qed.

Lemma recorded_links_witness : link_shape "http://bit.ly/x".
Proof.
  apply (recorded_links Sample.cfg Sample.rich_store "s2"
           (Sample.session_of Sample.rich_store "s2")).
  - apply reachable_run, reachable_start.
  - vm_compute. reflexivity.
  - apply list_in_spec. vm_compute. reflexivity.
Defined.

(** X6: the suspicious keywords of a session of a reachable store are
    entries of KEYWORDS_SCAM, so the list never holds more than the 26
    entries of the vocabulary. *)
Theorem recorded_keywords_bounded (cfg : Config) (st : gmap string Session)
  (sid : string) (s : Session) :
  reachable cfg st -> st !! sid = Some s ->
  (forall k, k ∈ suspiciousKeywords (intelligence s) -> k ∈ KEYWORDS_SCAM)
  /\ length (suspiciousKeywords (intelligence s)) <= 26.
Proof.
  intros Hreach Hs.
  assert (forall k, k ∈ suspiciousKeywords (intelligence s) ->
                    k ∈ KEYWORDS_SCAM) as Hsub.
  { intros k Hk.
    exact (reachable_shaped cfg st Hreach sid s Hs K_suspiciousKeywords k Hk). }
  split; [exact Hsub|].
  change 26 with (length KEYWORDS_SCAM).
  apply submseteq_length, NoDup_submseteq; [|exact Hsub].
  exact (reachable_intel_NoDup cfg st Hreach sid s Hs K_suspiciousKeywords).
Qed.

Lemma recorded_keywords_bounded_witness :
  length (suspiciousKeywords
            (intelligence (Sample.session_of Sample.rich_store "s2"))) <= 26.
Proof.
  apply (recorded_keywords_bounded Sample.cfg Sample.rich_store "s2"
           (Sample.session_of Sample.rich_store "s2")).
  - apply reachable_run, reachable_start.
  - vm_compute. reflexivity.
Defined.

(** X7: the classifier and the extractor agree.  A message is classified
    as a scam exactly when the extractor finds in it a suspicious keyword,
    a link or a payment identifier; phone numbers and account numbers do
    not count, so a message that is not classified as a scam leaves the
    keyword, link and payment-identifier lists of any dictionary as they
    are. *)
Theorem classifier_agrees_with_extractor (text : string) :
  (detect_scam text = true
   <-> found_keywords text <> []
       \/ Re.findall pat_phishingLinks text <> []
       \/ Re.findall pat_upiIds text <> [])
  /\ (detect_scam text = false ->
      forall i,
        suspiciousKeywords (extract_and_update_intelligence i text)
        = suspiciousKeywords i
        /\ phishingLinks (extract_and_update_intelligence i text)
           = phishingLinks i
        /\ upiIds (extract_and_update_intelligence i text) = upiIds i).
Proof.
  assert (detect_scam text = true
          <-> found_keywords text <> []
              \/ Re.findall pat_phishingLinks text <> []
              \/ Re.findall pat_upiIds text <> []) as Hiff.
  { unfold detect_scam, found_keywords.
    rewrite <- existsb_filter_nonempty, <- !search_bool_findall.
    destruct (existsb _ KEYWORDS_SCAM); [by split; [left|]|].
    destruct (Re.search_bool pat_phishingLinks text),
      (Re.search_bool pat_upiIds text); cbn [orb]; split; try done.
    - by right; left.
    - by right; left.
    - by right; right.
    - by intros [?|[?|?]]. }
  split; [exact Hiff|].
  intros Hno i.
  assert (found_keywords text = []
          /\ Re.findall pat_phishingLinks text = []
          /\ Re.findall pat_upiIds text = []) as (Hk & Hl & Hu).
  { destruct (found_keywords text) eqn:E1,
      (Re.findall pat_phishingLinks text) eqn:E2,
      (Re.findall pat_upiIds text) eqn:E3; try done.
    all: assert (detect_scam text = true) as Hyes
        by (apply Hiff; rewrite ?E1, ?E2, ?E3; auto); congruence. }
  change (suspiciousKeywords (extract_and_update_intelligence i text))
    with (intel_get K_suspiciousKeywords (extract_and_update_intelligence i text)).
  change (phishingLinks (extract_and_update_intelligence i text))
    with (intel_get K_phishingLinks (extract_and_update_intelligence i text)).
  change (upiIds (extract_and_update_intelligence i text))
    with (intel_get K_upiIds (extract_and_update_intelligence i text)).
  rewrite !extract_get. cbn [category_matches intel_get].
  by rewrite Hk, Hl, Hu.
Qed.
